(** * The taylor-series web entry point (src/app.py)

    The repository is one Python module.  It builds a Flask application,
    registers the view [index] for the rule "/", and, when it is run as a
    script, reads PORT and FLASK_DEBUG from the environment and starts the
    development server.

    The development has three layers:
    - [py]: the Python built-ins the module calls ([os.environ.get], [int],
      [str.lower], [==]), together with a small monad for exceptions and for
      the trace of effects a module performs while it is executed;
    - [flask]: the part of the web framework the module relies on (rules,
      request matching, views, responses, error responses, the server loop);
    - [app]: src/app.py itself, statement by statement.

    Strings are [String.string], sequences of bytes.  A value of the
    environment is the bytes the system holds, which Python decodes as
    UTF-8: [int] is modelled on the decoded characters, with the white space
    and the decimal digits of the Unicode database; [str.lower] is modelled
    on the ASCII letters, which is all the comparison with "true" can
    see. *)

From Stdlib Require Import ZArith Ascii String List Bool Lia.
From Stdlib Require Import Decimal DecimalString DecimalPos DecimalZ.
From stdpp Require Import base option list gmap strings.

Local Open Scope string_scope.
Local Open Scope list_scope.
Local Open Scope Z_scope.

(** ** The Unicode character database

    The two properties [int] asks of a character, as CPython 3.11 ships
    them (Unicode 14.0): white space, and the value of a decimal digit.
    The tables list the characters beyond ASCII; a block of decimal digits
    is ten consecutive characters and is listed by its zero. *)

Module unicodedata.

Definition spaces : list N :=
  [0x85; 0xA0; 0x1680; 0x2000; 0x2001; 0x2002; 0x2003; 0x2004; 0x2005; 0x2006;
   0x2007; 0x2008; 0x2009; 0x200A; 0x2028; 0x2029; 0x202F; 0x205F; 0x3000]%N.

Definition zeros : list N :=
  [0x660; 0x6F0; 0x7C0; 0x966; 0x9E6; 0xA66; 0xAE6; 0xB66; 0xBE6;
   0xC66; 0xCE6; 0xD66; 0xDE6; 0xE50; 0xED0; 0xF20; 0x1040; 0x1090;
   0x17E0; 0x1810; 0x1946; 0x19D0; 0x1A80; 0x1A90; 0x1B50; 0x1BB0; 0x1C40;
   0x1C50; 0xA620; 0xA8D0; 0xA900; 0xA9D0; 0xA9F0; 0xAA50; 0xABF0; 0xFF10;
   0x104A0; 0x10D30; 0x11066; 0x110F0; 0x11136; 0x111D0; 0x112F0; 0x11450; 0x114D0;
   0x11650; 0x116C0; 0x11730; 0x118E0; 0x11950; 0x11C50; 0x11D50; 0x11DA0; 0x16A60;
   0x16AC0; 0x16B50; 0x1D7CE; 0x1D7D8; 0x1D7E2; 0x1D7EC; 0x1D7F6; 0x1E140; 0x1E2F0;
   0x1E950; 0x1FBF0]%N.

(** [Py_UNICODE_ISSPACE] *)
Definition isspace (c : N) : bool :=
  (if c <? 128
   then (c =? 32) || ((9 <=? c) && (c <=? 13)) || ((28 <=? c) && (c <=? 31))
   else existsb (N.eqb c) spaces)%N.

(** [Py_UNICODE_TODECIMAL] *)
Definition decimal (c : N) : option N :=
  (if c <? 128
   then if (48 <=? c) && (c <=? 57) then Some (c - 48) else None
   else
     match find (fun z => (z <=? c) && (c <? z + 10)) zeros with
     | Some z => Some (c - z)
     | None => None
     end)%N.

End unicodedata.

(** ** Python built-ins *)

Module py.

(** Exceptions that can reach the module or the framework's dispatcher.
    [NotFound], [MethodNotAllowed] and [InternalServerError] are Werkzeug's
    HTTP exceptions (they carry a status code and are responses themselves);
    the others are ordinary Python or Jinja errors. *)
Inductive exception :=
| ValueError
| AttributeError
| KeyError
| TemplateNotFound (name : string)
| TemplateError
| NotFound
| MethodNotAllowed (valid_methods : gset string)
| InternalServerError.

Inductive result (A : Type) :=
| Ok (a : A)
| Raise (e : exception).
Arguments Ok {A} a.
Arguments Raise {A} e.

(** A Python value as the module handles them: [os.environ.get] gives back
    either a string of the environment or the default it was handed, which
    for PORT is the integer 5000. *)
Inductive value :=
| Str (s : string)
| Int (z : Z).

(** What the interpreter gives a module: [os.environ] and the limit
    [sys.get_int_max_str_digits()] on the length of a decimal string that
    [int] accepts (0: no limit). *)
Record interpreter := {
  environ : gmap string string;
  int_max_str_digits : nat
}.

(** Effects a module performs on the outside world while it is executed. *)
Inductive effect :=
| EnvironGet (key : string)
| AppRun (host : string) (port : Z) (debug : bool).

(** Reader (the interpreter), writer (the trace) and exceptions. *)
Definition M (A : Type) : Type := interpreter -> list effect * result A.

Definition ret {A} (a : A) : M A := fun _ => ([], Ok a).

Definition bind {A B} (m : M A) (f : A -> M B) : M B := fun i =>
  match m i with
  | (t, Ok a) => let '(t', r) := f a i in (t ++ t', r)
  | (t, Raise e) => (t, Raise e)
  end.

#[global] Instance M_ret : MRet M := @ret.
#[global] Instance M_bind : MBind M := fun A B f m => bind m f.

Definition lift {A} (r : result A) : M A := fun _ => ([], r).

Definition perform (e : effect) : M unit := fun _ => ([e], Ok tt).

Definition trace {A} (o : list effect * result A) : list effect := fst o.
Definition outcome {A} (o : list effect * result A) : result A := snd o.

(** [os.environ.get(key, default)] *)
Definition os_environ_get (key : string) (default : value) : M value := fun i =>
  ([EnvironGet key],
   Ok (match environ i !! key with
       | Some s => Str s
       | None => default
       end)).

(** *** [str.lower] *)

Definition is_upper (c : ascii) : bool :=
  let n := nat_of_ascii c in (65 <=? n)%nat && (n <=? 90)%nat.

Definition ascii_lower (c : ascii) : ascii :=
  if is_upper c then ascii_of_nat (nat_of_ascii c + 32) else c.

Fixpoint str_lower (s : string) : string :=
  match s with
  | EmptyString => EmptyString
  | String c s' => String (ascii_lower c) (str_lower s')
  end.

(** [v.lower()]: a method of [str]; any other receiver has no such
    attribute. *)
Definition lower (v : value) : result value :=
  match v with
  | Str s => Ok (Str (str_lower s))
  | Int _ => Raise AttributeError
  end.

(** [a == b] on the values above (an [int] never equals a [str]). *)
Definition eq (a b : value) : bool :=
  match a, b with
  | Str s, Str t => String.eqb s t
  | Int x, Int y => Z.eqb x y
  | _, _ => false
  end.

(** *** [int]

    [int(s)] for a string, base 10.  CPython first rewrites the string to
    ASCII (a non-ASCII white space becomes a space, a non-ASCII decimal
    digit its ASCII digit: [transform] below), then [PyLong_FromString]
    reads the result ([int_of_ascii]): white space, an optional sign,
    decimal digits in which single underscores may separate digits, white
    space, end of string. *)

Definition is_space (c : ascii) : bool :=
  let n := nat_of_ascii c in (n =? 32)%nat || ((9 <=? n)%nat && (n <=? 13)%nat).

Definition is_digit (c : ascii) : bool :=
  let n := nat_of_ascii c in (48 <=? n)%nat && (n <=? 57)%nat.

Definition digit_value (c : ascii) : option Z :=
  if is_digit c then Some (Z.of_nat (nat_of_ascii c) - 48) else None.

Fixpoint skip_space (s : string) : string :=
  match s with
  | String c s' => if is_space c then skip_space s' else s
  | EmptyString => EmptyString
  end.

Inductive scan_state := AtStart | AfterDigit | AfterUnderscore.

Definition scan_stop (prev : scan_state) (acc : Z) (digits : nat) (rest : string)
  : option (Z * nat * string) :=
  match prev with
  | AfterDigit => Some (acc, digits, rest)
  | AtStart | AfterUnderscore => None
  end.

(** The digit loop: the value read so far, the number of digits, and what
    follows the literal.  An underscore is accepted only right after a digit
    and must be followed by one. *)
Fixpoint scan_digits (s : string) (prev : scan_state) (acc : Z) (digits : nat)
  : option (Z * nat * string) :=
  match s with
  | EmptyString => scan_stop prev acc digits s
  | String c s' =>
      match digit_value c with
      | Some d => scan_digits s' AfterDigit (10 * acc + d) (S digits)
      | None =>
          if Ascii.eqb c "_" then
            match prev with
            | AfterDigit => scan_digits s' AfterUnderscore acc digits
            | AtStart | AfterUnderscore => None
            end
          else scan_stop prev acc digits s
      end
  end.

Definition split_sign (s : string) : bool * string :=
  match s with
  | String c s' =>
      if Ascii.eqb c "-" then (true, s')
      else if Ascii.eqb c "+" then (false, s')
      else (false, s)
  | EmptyString => (false, s)
  end.

(** Strings of more than 640 digits are checked against the interpreter's
    limit. *)
Definition exceeds_limit (max_str_digits digits : nat) : bool :=
  (640 <? digits)%nat && (0 <? max_str_digits)%nat && (max_str_digits <? digits)%nat.

Definition int_of_ascii (max_str_digits : nat) (s : string) : result Z :=
  let '(negative, body) := split_sign (skip_space s) in
  match scan_digits body AtStart 0 0 with
  | Some (n, digits, rest) =>
      if exceeds_limit max_str_digits digits then Raise ValueError
      else
        match skip_space rest with
        | EmptyString => Ok (if negative then - n else n)
        | String _ _ => Raise ValueError
        end
  | None => Raise ValueError
  end.

(** A string of the environment is held as the bytes the system holds;
    Python sees the characters [os.fsdecode] makes of them: UTF-8, each byte
    that is not part of a well-formed sequence escaped to the lone
    surrogate U+DC00 + byte ([surrogateescape]). *)
Inductive second_byte := Any | From_A0 | To_9F | From_90 | To_8F.

Definition second_lo (r : second_byte) : N :=
  match r with
  | From_A0 => 0xA0
  | From_90 => 0x90
  | Any | To_9F | To_8F => 0x80
  end%N.

Definition second_hi (r : second_byte) : N :=
  match r with
  | To_9F => 0x9F
  | To_8F => 0x8F
  | Any | From_A0 | From_90 => 0xBF
  end%N.

(** Between two characters, or inside one: the continuation bytes still to
    come, the scalar value read so far, the range of the next byte, and the
    bytes read, which are escaped when the sequence breaks off. *)
Inductive utf8_state :=
| Start
| Pending (need : nat) (acc : N) (next : second_byte) (raw : list N).

Definition escape (b : N) : N := (0xDC00 + b)%N.

Definition utf8_start (b : N) : list N * utf8_state :=
  (if b <? 0x80 then ([b], Start)
   else if (0xC2 <=? b) && (b <=? 0xDF) then ([], Pending 1 (b - 0xC0) Any [b])
   else if b =? 0xE0 then ([], Pending 2 (b - 0xE0) From_A0 [b])
   else if b =? 0xED then ([], Pending 2 (b - 0xE0) To_9F [b])
   else if (0xE1 <=? b) && (b <=? 0xEF) then ([], Pending 2 (b - 0xE0) Any [b])
   else if b =? 0xF0 then ([], Pending 3 (b - 0xF0) From_90 [b])
   else if b =? 0xF4 then ([], Pending 3 (b - 0xF0) To_8F [b])
   else if (0xF1 <=? b) && (b <=? 0xF3) then ([], Pending 3 (b - 0xF0) Any [b])
   else ([escape b], Start))%N.

Definition utf8_step (st : utf8_state) (b : N) : list N * utf8_state :=
  match st with
  | Start => utf8_start b
  | Pending need acc next raw =>
      if ((second_lo next <=? b) && (b <=? second_hi next))%N then
        let acc' := (acc * 64 + (b - 0x80))%N in
        match need with
        | S (S n) => ([], Pending (S n) acc' Any (raw ++ [b]))
        | _ => ([acc'], Start)
        end
      else
        let '(out, st') := utf8_start b in (map escape raw ++ out, st')
  end.

Definition utf8_flush (st : utf8_state) : list N :=
  match st with
  | Start => []
  | Pending _ _ _ raw => map escape raw
  end.

Fixpoint fsdecode_from (st : utf8_state) (s : string) : list N :=
  match s with
  | EmptyString => utf8_flush st
  | String c s' =>
      let '(out, st') := utf8_step st (N_of_ascii c) in
      out ++ fsdecode_from st' s'
  end.

Definition fsdecode (s : string) : list N := fsdecode_from Start s.

(** One character of [_PyUnicode_TransformDecimalAndSpaceToASCII]: a
    character below 127 is kept, a white space becomes a space, a decimal
    digit its ASCII digit; any other character has no image. *)
Definition to_ascii (c : N) : option ascii :=
  if (c <? 127)%N then Some (ascii_of_N c)
  else if unicodedata.isspace c then Some " "%char
  else
    match unicodedata.decimal c with
    | Some d => Some (ascii_of_N (48 + d)%N)
    | None => None
    end.

(** At the first character without an image the result ends with "?". *)
Fixpoint transform_each (cs : list N) : string :=
  match cs with
  | [] => EmptyString
  | c :: cs' =>
      match to_ascii c with
      | Some b => String b (transform_each cs')
      | None => "?"
      end
  end.

Fixpoint string_of_codes (cs : list N) : string :=
  match cs with
  | [] => EmptyString
  | c :: cs' => String (ascii_of_N c) (string_of_codes cs')
  end.

(** A string of ASCII characters is returned as it is. *)
Definition transform (cs : list N) : string :=
  if forallb (fun c => (c <? 128)%N) cs then string_of_codes cs
  else transform_each cs.

Definition int_of_str (max_str_digits : nat) (s : string) : result Z :=
  int_of_ascii max_str_digits (transform (fsdecode s)).

(** [int(v)] *)
Definition int (v : value) : M Z := fun i =>
  ([], match v with
       | Int z => Ok z
       | Str s => int_of_str (int_max_str_digits i) s
       end).

End py.

(** ** The web framework *)

Module flask.
Import py.

(** Modelled from the spec: Flask, Werkzeug and Jinja are imported by
    src/app.py and are not part of the repository.  The spec names a
    templates location, the rendering of a named template, the framework's
    standard not-found and error responses and a development server that
    serves until the process ends.  Where the spec is silent the framework's
    documented defaults are followed: [Flask(import_name)] serves the files
    of the folder "static" under "/static/<path:filename>", and
    [add_url_rule] completes the methods of a rule with OPTIONS and, when
    GET is among them, HEAD.

    A template file, as [render_template] sees it when it is called without
    context variables: it renders to a text, or rendering it raises (a
    syntax error, an undefined name, a missing include). *)
Inductive template :=
| Renders (html : string)
| Broken.

Record static_file := {
  content_type : string;
  contents : string
}.

(** The two folders next to the module. *)
Record files := {
  templates : gmap string template;
  static : gmap string static_file
}.

(** [request.method] is upper case and [request.path] begins with one
    slash (Werkzeug normalises both).  Werkzeug's redirect of a path with a
    repeated slash to the merged path, when that one has a rule, is left
    out: with the rules of this application it concerns paths under
    "/static/" only. *)
Record Request := {
  method : string;
  path : string
}.

Record Response := {
  status : Z;
  mimetype : string;
  data : string;
  allow : gset string
}.

(** What a view function may return. *)
Inductive rv :=
| RvStr (body : string)
| RvResponse (r : Response).

Definition view_args : Type := list (string * string).
Definition view : Type := files -> view_args -> result rv.

(** The two shapes of rule the application has: a literal path, and a
    literal prefix followed by one [<path:name>] converter. *)
Inductive pattern :=
| Literal (p : string)
| PathVar (prefix name : string).

Record Rule := {
  rule : pattern;
  endpoint : string;
  methods : gset string;
  provide_automatic_options : bool
}.

Record App := {
  import_name : string;
  static_folder : option string;
  template_folder : option string;
  url_map : list Rule;
  view_functions : gmap string view;
  error_handlers : list (exception -> option Response)
}.

(** Modelled from the spec: [render_template(name)], "the rendered contents
    of a single named template", looked up in the templates folder. *)
Definition render_template (name : string) : files -> result string := fun fs =>
  match templates fs !! name with
  | None => Raise (TemplateNotFound name)
  | Some Broken => Raise TemplateError
  | Some (Renders html) => Ok html
  end.

(** [send_static_file]: the view of the endpoint "static". *)
Definition send_static_file : view := fun fs args =>
  match list_find (fun kv => bool_decide (kv.1 = "filename")) args with
  | None => Raise KeyError
  | Some (_, (_, filename)) =>
      match static fs !! filename with
      | Some f =>
          Ok (RvResponse {| status := 200; mimetype := content_type f;
                            data := contents f; allow := ∅ |})
      | None => Raise NotFound
      end
  end.

(** [add_url_rule(rule, endpoint, view_func, methods=...)] *)
Definition add_url_rule (app : App) (p : pattern) (ep : string) (f : view)
    (ms : option (list string)) : App :=
  let given : gset string := list_to_set (default ["GET"] ms) in
  let automatic := bool_decide ("OPTIONS" ∉ given) in
  let with_options := if automatic then given ∪ {["OPTIONS"]} else given in
  let all :=
    if bool_decide ("GET" ∈ with_options) then with_options ∪ {["HEAD"]}
    else with_options in
  {| import_name := import_name app;
     static_folder := static_folder app;
     template_folder := template_folder app;
     url_map := url_map app ++
       [{| rule := p; endpoint := ep; methods := all;
           provide_automatic_options := automatic |}];
     view_functions := <[ep := f]> (view_functions app);
     error_handlers := error_handlers app |}.

(** Modelled from the spec: [Flask(import_name)], the application object
    "capable of HTTP routing".  The arguments the module leaves out take
    their defaults, the folders "static" and "templates"; an application
    that has a static folder starts with the rule that serves it. *)
Definition Flask (name : string) : App :=
  let self :=
    {| import_name := name;
       static_folder := Some "static";
       template_folder := Some "templates";
       url_map := [];
       view_functions := ∅;
       error_handlers := [] |} in
  match static_folder self with
  | Some folder =>
      add_url_rule self (PathVar ("/" +:+ folder +:+ "/") "filename") "static"
        send_static_file None
  | None => self
  end.

(** The rule [Flask(import_name)] starts with ([url_map_Flask] below). *)
Definition static_rule : Rule :=
  {| rule := PathVar "/static/" "filename"; endpoint := "static";
     methods := {["GET"; "HEAD"; "OPTIONS"]}; provide_automatic_options := true |}.

(** [@app.route(rule)] applied to the function [f] named [name]. *)
Definition route (app : App) (r : string) (name : string) (f : view) : App :=
  add_url_rule app (Literal r) name f None.

(** *** Matching a request (Werkzeug's [MapAdapter.match]) *)

Fixpoint strip_prefix (p s : string) : option string :=
  match p, s with
  | EmptyString, _ => Some s
  | String a p', String b s' => if Ascii.eqb a b then strip_prefix p' s' else None
  | String _ _, EmptyString => None
  end.

(** The [path] converter takes what is left of the path when it is not
    empty and does not begin with a slash. *)
Definition match_pattern (p : pattern) (pth : string) : option view_args :=
  match p with
  | Literal l => if String.eqb l pth then Some [] else None
  | PathVar prefix name =>
      match strip_prefix prefix pth with
      | Some (String c rest) =>
          if Ascii.eqb c "/" then None else Some [(name, String c rest)]
      | Some EmptyString | None => None
      end
  end.

(** Modelled from the spec: "the framework's standard not-found response"
    for a path without a rule.  The first rule whose pattern and methods
    both fit is taken.  The methods of the rules that fit the path alone
    are collected: when no rule is found they tell a wrong method (405)
    from an unknown path (404). *)
Fixpoint match_rules (rules : list Rule) (req : Request) (have_match_for : gset string)
  : result (Rule * view_args) :=
  match rules with
  | [] =>
      if bool_decide (have_match_for = ∅) then Raise NotFound
      else Raise (MethodNotAllowed have_match_for)
  | r :: rules' =>
      match match_pattern (rule r) (path req) with
      | Some args =>
          if bool_decide (method req ∈ methods r) then Ok (r, args)
          else match_rules rules' req (have_match_for ∪ methods r)
      | None => match_rules rules' req have_match_for
      end
  end.

Fixpoint allowed_methods (rules : list Rule) (pth : string) : gset string :=
  match rules with
  | [] => ∅
  | r :: rules' =>
      match match_pattern (rule r) pth with
      | Some _ => methods r ∪ allowed_methods rules' pth
      | None => allowed_methods rules' pth
      end
  end.

(** *** Responses *)

Definition make_default_options_response (app : App) (req : Request) : Response :=
  {| status := 200; mimetype := "text/html"; data := "";
     allow := allowed_methods (url_map app) (path req) |}.

(** A string returned by a view becomes the body of a 200 response of the
    default mimetype. *)
Definition make_response (v : rv) : Response :=
  match v with
  | RvStr body => {| status := 200; mimetype := "text/html"; data := body; allow := ∅ |}
  | RvResponse r => r
  end.

(** The standard page of an HTTP exception, named by its title. *)
Definition error_page (code : Z) (title : string) (allowed : gset string) : Response :=
  {| status := code; mimetype := "text/html"; data := title; allow := allowed |}.

Definition get_response (e : exception) : option Response :=
  match e with
  | NotFound => Some (error_page 404 "404 Not Found" ∅)
  | MethodNotAllowed ms => Some (error_page 405 "405 Method Not Allowed" ms)
  | InternalServerError => Some (error_page 500 "500 Internal Server Error" ∅)
  | ValueError | AttributeError | KeyError | TemplateNotFound _ | TemplateError => None
  end.

(** *** Dispatch *)

Definition dispatch_request (app : App) (fs : files) (req : Request) : result rv :=
  match match_rules (url_map app) req ∅ with
  | Raise e => Raise e
  | Ok (r, args) =>
      if provide_automatic_options r && String.eqb (method req) "OPTIONS"
      then Ok (RvResponse (make_default_options_response app req))
      else
        match view_functions app !! endpoint r with
        | Some f => f fs args
        | None => Raise KeyError
        end
  end.

(** The first registered error handler that takes the exception. *)
Fixpoint find_error_handler (hs : list (exception -> option Response)) (e : exception)
  : option Response :=
  match hs with
  | [] => None
  | h :: hs' =>
      match h e with
      | Some r => Some r
      | None => find_error_handler hs' e
      end
  end.

(** Modelled from the spec: "the framework's standard error response (HTTP
    500)" for an exception no handler took (a handler registered for
    [InternalServerError] may replace the page).  Under the debugger of the
    development server the page differs, the status does not. *)
Definition handle_exception (app : App) (e : exception) : Response :=
  match find_error_handler (error_handlers app) InternalServerError with
  | Some r => r
  | None => error_page 500 "500 Internal Server Error" ∅
  end.

Definition handle_user_exception (app : App) (e : exception) : Response :=
  match find_error_handler (error_handlers app) e with
  | Some r => r
  | None =>
      match get_response e with
      | Some r => r
      | None => handle_exception app e
      end
  end.

Definition full_dispatch_request (app : App) (fs : files) (req : Request) : Response :=
  match dispatch_request app fs req with
  | Ok v => make_response v
  | Raise e => handle_user_exception app e
  end.

Definition without_body (r : Response) : Response :=
  {| status := status r; mimetype := mimetype r; data := ""; allow := allow r |}.

(** Modelled from the spec: [app.wsgi_app], the answer of the application
    to one request; the answer to HEAD is sent without its body. *)
Definition wsgi_app (app : App) (fs : files) (req : Request) : Response :=
  let r := full_dispatch_request app fs req in
  if String.eqb (method req) "HEAD" then without_body r else r.

(** *** The development server *)

(** [app.run(host, port, debug)] hands the process to the server.  The
    effect records the call and its arguments, made on the receiver [app];
    the result stands for the call having been made.  What the call does
    then is the platform's and is not modelled at this point: it binds the
    socket (a port outside 0..65535 is refused with [OverflowError], an
    address in use with [OSError]) and serves ([serve] below). *)
Definition run (app : App) (host : string) (port : Z) (debug : bool) : M unit :=
  perform (AppRun host port debug).

(** Modelled from the spec: the spec does not say what the constructor
    reads, and the framework's own code is followed.  [get_debug_flag] is
    the function with which [Flask(import_name)] computes the default of
    the setting DEBUG of the application (Flask 2.3 and later; earlier
    versions read FLASK_ENV as well).  It reads FLASK_DEBUG: any value but
    the empty string, "0", "false" and "no" (up to case) turns the default
    on. *)
Definition get_debug_flag : M bool := fun i =>
  ([EnvironGet "FLASK_DEBUG"],
   Ok (match environ i !! "FLASK_DEBUG" with
       | Some s =>
           negb (String.eqb s "")
           && negb (existsb (String.eqb (str_lower s)) ["0"; "false"; "no"])
       | None => false
       end)).

Record server := {
  server_host : string;
  server_port : Z;
  server_debug : bool;
  application : App
}.

Inductive event :=
| Incoming (req : Request)
| Terminate.

Inductive process :=
| Listening (s : server)
| Exited.

(** Modelled from the spec: the server "serves requests until the process
    terminates (signal, crash, or parent supervisor stop)".  A request is
    answered by the application and the server goes on listening; the end
    of the process ends it. *)
Definition step (fs : files) (p : process) (ev : event) : process * list Response :=
  match p, ev with
  | Listening s, Incoming req => (Listening s, [wsgi_app (application s) fs req])
  | Listening s, Terminate => (Exited, [])
  | Exited, _ => (Exited, [])
  end.

Fixpoint serve (fs : files) (p : process) (evs : list event) : process * list Response :=
  match evs with
  | [] => (p, [])
  | ev :: evs' =>
      let '(p', out) := step fs p ev in
      let '(p'', out') := serve fs p' evs' in
      (p'', out ++ out')
  end.

End flask.

(** ** src/app.py *)

Module app.
Import py flask.

(** [def index(): return render_template("index.html")] *)
Definition index : view := fun fs _ =>
  match render_template "index.html" fs with
  | Ok html => Ok (RvStr html)
  | Raise e => Raise e
  end.

(** [app = Flask(__name__)] followed by [@app.route("/")] on [index]. *)
Definition app (__name__ : string) : App :=
  route (Flask __name__) "/" "index" index.

(** The rule the decorator adds ([url_map_app] below). *)
Definition index_rule : Rule :=
  {| rule := Literal "/"; endpoint := "index";
     methods := {["GET"; "HEAD"; "OPTIONS"]}; provide_automatic_options := true |}.

(** [port = int(os.environ.get("PORT", 5000))] *)
Definition port : M Z :=
  v ← os_environ_get "PORT" (Int 5000);
  int v.

(** [debug = os.environ.get("FLASK_DEBUG", "false").lower() == "true"] *)
Definition debug : M bool :=
  v ← os_environ_get "FLASK_DEBUG" (Str "false");
  l ← lift (lower v);
  mret (eq l (Str "true")).

(** The values the two lines above compute ([port_eq] and [debug_eq] below
    prove it), without the monad. *)
Definition parsed_port (i : interpreter) : result Z :=
  match environ i !! "PORT" with
  | Some s => int_of_str (int_max_str_digits i) s
  | None => Ok 5000
  end.

Definition debug_flag (i : interpreter) : bool :=
  match environ i !! "FLASK_DEBUG" with
  | Some s => String.eqb (str_lower s) "true"
  | None => false
  end.

(** The body of [if __name__ == "__main__":]. *)
Definition main (__name__ : string) : M unit :=
  p ← port;
  d ← debug;
  run (app __name__) "0.0.0.0" p d.

(** The module, executed under the name [__name__]: as a script that name
    is "__main__", on import it is the name of the module. *)
Definition module (__name__ : string) : M App :=
  if String.eqb __name__ "__main__"
  then main __name__;; mret (app __name__)
  else mret (app __name__).

(** The module as the interpreter executes it, the framework's own read of
    the environment included.  [module] records the effects of the
    statements of the module; the constructor called at line 4 reads
    FLASK_DEBUG itself, before any of them, and the application comes with
    the default it has computed for its setting DEBUG. *)
Definition execute (__name__ : string) : M (App * bool) :=
  d ← get_debug_flag;
  a ← module __name__;
  mret (a, d).

End app.

(** ** The notions of the specification

    *** Case-insensitive comparison

    Two strings are equal up to case when they have the same length and, at
    each position, the same character or the capital and the small form of
    one letter. *)

Module spec.
Import py.

Definition capitals : string := "ABCDEFGHIJKLMNOPQRSTUVWXYZ".
Definition smalls : string := "abcdefghijklmnopqrstuvwxyz".

Definition letter_pairs : list (ascii * ascii) :=
  combine (list_ascii_of_string capitals) (list_ascii_of_string smalls).

Definition ascii_eq_ignore_case (a b : ascii) : bool :=
  Ascii.eqb a b
  || existsb (fun p => (Ascii.eqb a p.1 && Ascii.eqb b p.2)
                       || (Ascii.eqb a p.2 && Ascii.eqb b p.1)) letter_pairs.

Fixpoint eq_ignore_case (s t : string) : bool :=
  match s, t with
  | EmptyString, EmptyString => true
  | String a s', String b t' => ascii_eq_ignore_case a b && eq_ignore_case s' t'
  | _, _ => false
  end.

(** *** The writing of an integer

    What a character is to an integer literal.  White space is the ASCII
    white space and the white space of the Unicode database beyond ASCII; a
    digit is any decimal digit of the database. *)
Inductive class :=
| White
| Digit (d : Z)
| Plus
| Minus
| Underscore
| Other.

Definition class_of (c : N) : class :=
  (if c =? 43 then Plus
   else if c =? 45 then Minus
   else if c =? 95 then Underscore
   else if (c =? 32) || ((9 <=? c) && (c <=? 13))
           || ((128 <=? c) && unicodedata.isspace c) then White
   else
     match unicodedata.decimal c with
     | Some d => Digit (Z.of_N d)
     | None => Other
     end)%N.

Section Literal.
Context {A : Type} (cls : A -> class).

(** Digits, with single underscores allowed between two digits. *)
Inductive digits : list A -> list Z -> Prop :=
| digits_last x d :
    cls x = Digit d -> digits [x] [d]
| digits_next x d xs ds :
    cls x = Digit d -> digits xs ds -> digits (x :: xs) (d :: ds)
| digits_sep x d y xs ds :
    cls x = Digit d -> cls y = Underscore -> digits xs ds ->
    digits (x :: y :: xs) (d :: ds).

(** No sign, a plus sign, or a minus sign. *)
Inductive sign : list A -> bool -> Prop :=
| sign_none : sign [] false
| sign_plus x : cls x = Plus -> sign [x] false
| sign_minus x : cls x = Minus -> sign [x] true.

(** White space, a sign, digits, white space. *)
Definition literal (xs : list A) (negative : bool) (ds : list Z) : Prop :=
  exists pre sg body post,
    xs = pre ++ sg ++ body ++ post /\
    Forall (fun x => cls x = White) pre /\
    sign sg negative /\
    digits body ds /\
    Forall (fun x => cls x = White) post.

End Literal.

(** The value of a sequence of decimal digits. *)
Definition value (ds : list Z) : Z := fold_left (fun a d => 10 * a + d) ds 0.

(** The interpreter's limit on the number of digits it converts: numbers
    of up to 640 digits always pass, and the limit 0 is no limit. *)
Definition within_limit (max_str_digits digits : nat) : Prop :=
  (digits <= 640 \/ max_str_digits = 0 \/ digits <= max_str_digits)%nat.

(** The characters [cs] are a writing of the integer [z] that the
    interpreter converts. *)
Definition integer (max_str_digits : nat) (cs : list N) (z : Z) : Prop :=
  exists negative ds,
    literal class_of cs negative ds /\
    within_limit max_str_digits (length ds) /\
    z = if negative then - value ds else value ds.

(** A text is not numeric when none of its characters is a digit, or when
    one of them is neither a digit, a sign, an underscore nor white
    space. *)
Definition non_numeric_text (cs : list N) : Prop :=
  Forall (fun c => forall d, class_of c <> Digit d) cs \/
  Exists (fun c => class_of c = Other) cs.

(** *** ASCII strings *)

(** An ASCII string is not numeric when it has no decimal digit, or has a
    character that no decimal integer literal contains (anything but a
    digit, a sign, an underscore or white space). *)
Definition literal_char (c : ascii) : bool :=
  is_digit c || is_space c || Ascii.eqb c "_" || Ascii.eqb c "+" || Ascii.eqb c "-".

Fixpoint has_char (p : ascii -> bool) (s : string) : bool :=
  match s with
  | EmptyString => false
  | String c s' => p c || has_char p s'
  end.

Definition non_numeric (s : string) : bool :=
  negb (has_char is_digit s) || has_char (fun c => negb (literal_char c)) s.

(** A string made of white space only (the empty string is one). *)
Definition all_space (s : string) : bool :=
  negb (has_char (fun c => negb (is_space c)) s).

(** The decimal writing of an integer: a minus sign for a negative one, then
    its digits without leading zeros ("0" for zero). *)
Definition decimal (z : Z) : string :=
  NilEmpty.string_of_int (Z.to_int z).

(** A string of bytes below 128. *)
Definition is_ascii (s : string) : bool :=
  negb (has_char (fun c => (128 <=? N_of_ascii c)%N) s).

(** The bytes of a string, as numbers. *)
Definition codes (s : string) : list N := N_of_ascii <$> list_ascii_of_string s.

(** The class of an ASCII character as [int_of_ascii] tests it. *)
Definition ascii_class (b : ascii) : class :=
  if Ascii.eqb b "+" then Plus
  else if Ascii.eqb b "-" then Minus
  else if Ascii.eqb b "_" then Underscore
  else if is_space b then White
  else
    match digit_value b with
    | Some d => Digit d
    | None => Other
    end.

(** What may stand behind the digits of an ASCII literal: nothing, or a
    character that is neither a digit nor an underscore. *)
Definition stops (rest : list ascii) : Prop :=
  match rest with
  | [] => True
  | c :: _ => (forall d, ascii_class c <> Digit d) /\ ascii_class c <> Underscore
  end.

End spec.

(** ** Concrete inputs *)

Module examples.
Import py flask.

Definition interp (env : gmap string string) : interpreter :=
  {| environ := env; int_max_str_digits := 4300 |}.

Definition no_variables : interpreter := interp ∅.
Definition port_8080 : interpreter := interp {[ "PORT" := "8080" ]}.
Definition port_empty : interpreter := interp {[ "PORT" := "" ]}.
Definition port_word : interpreter := interp {[ "PORT" := "http" ]}.
Definition debug_mixed_case : interpreter := interp {[ "FLASK_DEBUG" := "True" ]}.

Definition GET (p : string) : Request := {| method := "GET"; path := p |}.

Definition stylesheet : static_file :=
  {| content_type := "text/css"; contents := "body { margin: 0 }" |}.

(** A checkout with a page that renders and one style sheet. *)
Definition site : files :=
  {| templates := {[ "index.html" := Renders "<h1>Taylor series</h1>" ]};
     static := {[ "style.css" := stylesheet ]} |}.

(** The same with a template that is there and does not render. *)
Definition site_broken_template : files :=
  {| templates := {[ "index.html" := Broken ]}; static := ∅ |}.

(** No template at all. *)
Definition site_without_template : files :=
  {| templates := ∅; static := ∅ |}.

(** 8080 written in Arabic-Indic digits (U+0668 is the bytes 217 and 168,
    U+0660 the bytes 217 and 160), and 8080 behind a no-break space (U+00A0,
    the bytes 194 and 160). *)
Definition arabic_indic_8080 : string :=
  String "217" (String "168" (String "217" (String "160"
    (String "217" (String "168" (String "217" (String "160" EmptyString))))))).
Definition nbsp_8080 : string := String "194" (String "160" "8080").

Definition port_arabic_indic : interpreter := interp {[ "PORT" := arabic_indic_8080 ]}.
Definition port_after_nbsp : interpreter := interp {[ "PORT" := nbsp_8080 ]}.

Definition port_with_spaces : interpreter := interp {[ "PORT" := " 8080 " ]}.
Definition port_70000 : interpreter := interp {[ "PORT" := "70000" ]}.
Definition debug_one : interpreter := interp {[ "FLASK_DEBUG" := "1" ]}.
Definition port_8080_at_home : interpreter :=
  interp (<[ "HOME" := "/root" ]> {[ "PORT" := "8080" ]}).

End examples.

(** ** Properties of the built-ins *)

Section Builtins.
Import py spec.

Lemma nat_of_ascii_lower (c : ascii) :
  nat_of_ascii (ascii_lower c) =
  (if is_upper c then nat_of_ascii c + 32 else nat_of_ascii c)%nat.
Proof.
  unfold ascii_lower. destruct (is_upper c) eqn:E; [|reflexivity].
  apply nat_ascii_embedding.
  unfold is_upper in E. apply andb_prop in E as [_ E].
  apply Nat.leb_le in E. lia.
Qed.

Lemma nat_of_ascii_inj (a b : ascii) : nat_of_ascii a = nat_of_ascii b -> a = b.
Proof.
  intros H. rewrite <- (ascii_nat_embedding a), <- (ascii_nat_embedding b).
  now rewrite H.
Qed.

Lemma is_upper_spec (c : ascii) :
  is_upper c = true <-> (65 <= nat_of_ascii c <= 90)%nat.
Proof.
  unfold is_upper. rewrite andb_true_iff, !Nat.leb_le. tauto.
Qed.

Lemma every_ascii (c : ascii) : In c (map ascii_of_nat (seq 0 256)).
Proof.
  rewrite <- (ascii_nat_embedding c). apply in_map, in_seq.
  pose proof (nat_ascii_bounded c). lia.
Qed.

(** Lower-casing identifies exactly the characters that are equal up to
    case: checked on every pair of characters. *)
Lemma ascii_lower_eq_iff (a b : ascii) :
  ascii_lower a = ascii_lower b <-> ascii_eq_ignore_case a b = true.
Proof.
  assert (forallb (fun a => forallb (fun b =>
            Bool.eqb (Ascii.eqb (ascii_lower a) (ascii_lower b))
                     (ascii_eq_ignore_case a b))
            (map ascii_of_nat (seq 0 256)))
            (map ascii_of_nat (seq 0 256)) = true) as Hall
    by (vm_compute; reflexivity).
  rewrite forallb_forall in Hall. specialize (Hall a (every_ascii a)).
  rewrite forallb_forall in Hall. specialize (Hall b (every_ascii b)).
  apply Bool.eqb_prop in Hall. rewrite <- Hall. symmetry. apply Ascii.eqb_eq.
Qed.

Example str_lower_examples :
  map str_lower ["TRUE"; "True"; "tRuE"; "1"; "yes"; ""] =
  ["true"; "true"; "true"; "1"; "yes"; ""].
Proof. reflexivity. Qed.

Lemma str_lower_eq_iff (s t : string) :
  str_lower s = str_lower t <-> eq_ignore_case s t = true.
Proof.
  revert t. induction s as [|a s IH]; intros [|b t]; simpl; try easy.
  rewrite andb_true_iff, <- ascii_lower_eq_iff, <- IH.
  split; [intros [= -> ->] | intros [-> ->]]; auto.
Qed.

(** *** The integer parser *)

Example int_of_ascii_accepts :
  map (int_of_ascii 4300) ["8080"; " 80 "; "+1_000"; "-12"; "0010"] =
  [Ok 8080; Ok 80; Ok 1000; Ok (-12); Ok 10].
Proof. reflexivity. Qed.

Example int_of_ascii_refuses :
  map (int_of_ascii 4300) [""; " "; "_1"; "1_"; "1__0"; "0x10"; "12a"; "- 1"; "5000.0"] =
  repeat (Raise ValueError) 9.
Proof. reflexivity. Qed.

Example non_numeric_examples :
  map non_numeric [""; "http"; "12a"; "8080"; "- 1"] = [true; true; true; false; false].
Proof. reflexivity. Qed.

Lemma int_of_ascii_raises (m : nat) (s : string) (e : exception) :
  int_of_ascii m s = Raise e -> e = ValueError.
Proof.
  unfold int_of_ascii. destruct (split_sign _) as [negative body].
  destruct (scan_digits _ _ _ _) as [[[n digits] rest]|]; [|congruence].
  destruct (exceeds_limit _ _); [congruence|].
  destruct (skip_space rest); congruence.
Qed.

Lemma has_char_skip_space (p : ascii -> bool) (s : string) :
  has_char p (skip_space s) = true -> has_char p s = true.
Proof.
  induction s as [|c s IH]; simpl; [easy|].
  destruct (is_space c); simpl; [|easy].
  intros H. rewrite (IH H). apply orb_true_r.
Qed.

Lemma has_char_split_sign (p : ascii -> bool) (s : string) :
  has_char p (split_sign s).2 = true -> has_char p s = true.
Proof.
  destruct s as [|c s]; simpl; [easy|].
  destruct (Ascii.eqb c "-"); [|destruct (Ascii.eqb c "+")]; simpl; try easy;
    intros ->; apply orb_true_r.
Qed.

(** The digit loop succeeds only after it has read a digit. *)
Lemma scan_digits_no_digit (s : string) (prev : scan_state) (acc : Z) (digits : nat) :
  has_char is_digit s = false -> prev <> AfterDigit ->
  scan_digits s prev acc digits = None.
Proof.
  revert prev acc digits. induction s as [|c s IH]; intros prev acc digits Hs Hprev.
  - simpl. destruct prev; easy.
  - simpl in *. apply orb_false_elim in Hs as [Hc Hs].
    unfold digit_value. rewrite Hc.
    destruct (Ascii.eqb c "_"); destruct prev; easy.
Qed.

(** What the digit loop reads is made of digits and underscores. *)
Lemma scan_digits_foreign (s : string) (prev : scan_state) (acc : Z) (digits : nat)
    (n : Z) (digits' : nat) (rest : string) :
  scan_digits s prev acc digits = Some (n, digits', rest) ->
  has_char (fun c => negb (literal_char c)) s =
  has_char (fun c => negb (literal_char c)) rest.
Proof.
  revert prev acc digits. induction s as [|c s IH]; intros prev acc digits.
  - simpl. destruct prev; simpl; try discriminate. now intros [= <- <- <-].
  - simpl. unfold digit_value. destruct (is_digit c) eqn:Hd.
    + intros H. apply IH in H. rewrite <- H. unfold literal_char. now rewrite Hd.
    + destruct (Ascii.eqb c "_") eqn:Hu.
      * destruct prev; try discriminate.
        intros H. apply IH in H. rewrite <- H. unfold literal_char.
        rewrite Hu, Hd. now destruct (is_space c).
      * destruct prev; simpl; try discriminate. now intros [= <- <- <-].
Qed.

Lemma skip_space_foreign (s : string) :
  has_char (fun c => negb (literal_char c)) s =
  has_char (fun c => negb (literal_char c)) (skip_space s).
Proof.
  induction s as [|c s IH]; simpl; [reflexivity|].
  destruct (is_space c) eqn:Hs; simpl; [|reflexivity].
  rewrite <- IH. unfold literal_char. rewrite Hs. now destruct (is_digit c).
Qed.

Lemma split_sign_foreign (s : string) :
  has_char (fun c => negb (literal_char c)) s =
  has_char (fun c => negb (literal_char c)) (split_sign s).2.
Proof.
  destruct s as [|c s]; simpl; [reflexivity|]. unfold literal_char.
  destruct (Ascii.eqb c "-") eqn:Hm; [|destruct (Ascii.eqb c "+") eqn:Hp];
    simpl; rewrite ?Hm, ?Hp; try reflexivity;
    rewrite ?orb_true_r; reflexivity.
Qed.

(** [int] refuses every string that is not numeric. *)
Lemma int_of_ascii_non_numeric (m : nat) (s : string) :
  non_numeric s = true -> int_of_ascii m s = Raise ValueError.
Proof.
  unfold non_numeric, int_of_ascii. intros H.
  pose proof (split_sign_foreign (skip_space s)) as Hf.
  pose proof (has_char_split_sign is_digit (skip_space s)) as Hd.
  destruct (split_sign (skip_space s)) as [negative body]. simpl in Hf, Hd.
  destruct (scan_digits body AtStart 0 0) as [[[n digits] rest]|] eqn:Hscan;
    [|reflexivity].
  destruct (exceeds_limit m digits); [reflexivity|].
  destruct (skip_space rest) eqn:Hrest; [exfalso|reflexivity].
  apply orb_true_iff in H as [H|H].
  - apply negb_true_iff in H.
    rewrite scan_digits_no_digit in Hscan; [discriminate| |discriminate].
    destruct (has_char is_digit body) eqn:Hb; [|reflexivity].
    rewrite (has_char_skip_space _ _ (Hd eq_refl)) in H. discriminate.
  - rewrite skip_space_foreign, Hf, (scan_digits_foreign _ _ _ _ _ _ _ Hscan),
      skip_space_foreign, Hrest in H.
    discriminate.
Qed.

End Builtins.

(** ** Further properties of [int] and [str.lower] *)

Section MoreBuiltins.
Import py spec.

Lemma length_str_lower (s : string) : String.length (str_lower s) = String.length s.
Proof. induction s as [|c s IH]; simpl; congruence. Qed.

Lemma all_space_cons (c : ascii) (s : string) :
  all_space (String c s) = is_space c && all_space s.
Proof. unfold all_space. simpl. now destruct (is_space c). Qed.

Lemma is_space_not_digit (c : ascii) : is_space c = true -> digit_value c = None.
Proof.
  unfold digit_value, is_digit, is_space. intros H.
  destruct ((48 <=? nat_of_ascii c)%nat && (nat_of_ascii c <=? 57)%nat) eqn:E;
    [exfalso|reflexivity].
  apply andb_prop in E as [E1 E2]. apply Nat.leb_le in E1, E2.
  apply orb_prop in H as [H|H].
  - apply Nat.eqb_eq in H. lia.
  - apply andb_prop in H as [_ H]. apply Nat.leb_le in H. lia.
Qed.

Lemma is_space_not_underscore (c : ascii) : is_space c = true -> Ascii.eqb c "_" = false.
Proof.
  intros H. apply Ascii.eqb_neq. intros ->. discriminate.
Qed.

Lemma skip_space_all_space (s : string) : all_space s = true -> skip_space s = "".
Proof.
  induction s as [|c s IH]; [reflexivity|].
  rewrite all_space_cons. intros [Hc Hs]%andb_prop. simpl. now rewrite Hc, IH.
Qed.

(** White space in front of a string is skipped. *)
Lemma skip_space_prefix (pre s : string) :
  all_space pre = true -> skip_space (pre +:+ s) = skip_space s.
Proof.
  induction pre as [|c pre IH]; [reflexivity|].
  rewrite all_space_cons. intros [Hc Hs]%andb_prop. simpl. now rewrite Hc, IH.
Qed.

(** White space behind a string is skipped when the string itself is, and
    stays behind what is left otherwise. *)
Lemma skip_space_suffix (s post : string) :
  all_space post = true ->
  skip_space (s +:+ post) =
  match skip_space s with
  | EmptyString => EmptyString
  | String c r => String c r +:+ post
  end.
Proof.
  intros Hpost. induction s as [|c s IH]; simpl.
  - now apply skip_space_all_space.
  - destruct (is_space c); [exact IH | reflexivity].
Qed.

Lemma scan_stop_suffix (prev : scan_state) (acc : Z) (digits : nat) (post : string) :
  scan_stop prev acc digits post =
  option_map (fun '(n, d, r) => (n, d, r +:+ post)) (scan_stop prev acc digits "").
Proof. now destruct prev. Qed.

(** White space behind the digits is left for the caller. *)
Lemma scan_digits_suffix (s post : string) (prev : scan_state) (acc : Z) (digits : nat) :
  all_space post = true ->
  scan_digits (s +:+ post) prev acc digits =
  option_map (fun '(n, d, r) => (n, d, r +:+ post)) (scan_digits s prev acc digits).
Proof.
  intros Hpost. revert prev acc digits.
  induction s as [|c s IH]; intros prev acc digits.
  - simpl. destruct post as [|c post]; [now destruct prev|].
    rewrite all_space_cons in Hpost. apply andb_prop in Hpost as [Hc _].
    simpl. rewrite (is_space_not_digit c Hc), (is_space_not_underscore c Hc).
    apply scan_stop_suffix.
  - simpl. destruct (digit_value c); [apply IH|].
    destruct (Ascii.eqb c "_").
    + destruct prev; try reflexivity. apply IH.
    + now destruct prev.
Qed.

(** [int] ignores white space around its argument. *)
Lemma int_of_ascii_strip (m : nat) (pre s post : string) :
  all_space pre = true -> all_space post = true ->
  int_of_ascii m (pre +:+ s +:+ post) = int_of_ascii m s.
Proof.
  intros Hpre Hpost. unfold int_of_ascii.
  rewrite (skip_space_prefix _ _ Hpre), (skip_space_suffix _ _ Hpost).
  destruct (skip_space s) as [|c r]; [reflexivity|].
  assert (split_sign (String c r +:+ post) =
          ((split_sign (String c r)).1, (split_sign (String c r)).2 +:+ post)) as ->.
  { simpl. destruct (Ascii.eqb c "-"); [reflexivity|]. now destruct (Ascii.eqb c "+"). }
  destruct (split_sign (String c r)) as [negative body]. simpl fst. simpl snd.
  rewrite (scan_digits_suffix _ _ _ _ _ Hpost).
  destruct (scan_digits body AtStart 0 0) as [[[n digits] rest]|]; [|reflexivity].
  cbn [option_map]. cbv beta iota. destruct (exceeds_limit m digits); [reflexivity|].
  rewrite (skip_space_suffix _ _ Hpost). now destruct (skip_space rest).
Qed.

(** *** Decimal numerals *)

Lemma scan_digits_uint_pos (d : uint) :
  forall (acc : positive) (z : Z) (k k' : nat),
    z = Z.pos acc -> k' = (k + nb_digits d)%nat ->
    scan_digits (NilEmpty.string_of_uint d) AfterDigit z k =
    Some (Z.pos (Pos.of_uint_acc d acc), k', "").
Proof.
  induction d; intros acc z k k' -> ->;
    cbn [NilEmpty.string_of_uint scan_digits Pos.of_uint_acc nb_digits scan_stop];
    [f_equal; f_equal; f_equal; lia | ..].
  all: match goal with
       | |- context [digit_value ?c] =>
           let v := eval vm_compute in (digit_value c) in
           change (digit_value c) with v
       end.
  all: cbv iota; apply IHd; lia.
Qed.

Lemma scan_digits_uint (d : uint) :
  forall (k k' : nat),
    k' = (k + nb_digits d)%nat ->
    scan_digits (NilEmpty.string_of_uint d) AfterDigit 0 k =
    Some (Z.of_N (Pos.of_uint d), k', "").
Proof.
  induction d; intros k k' ->;
    cbn [NilEmpty.string_of_uint scan_digits Pos.of_uint nb_digits scan_stop];
    [f_equal; f_equal; f_equal; lia | ..].
  all: match goal with
       | |- context [digit_value ?c] =>
           let v := eval vm_compute in (digit_value c) in
           change (digit_value c) with v
       end.
  all: cbv iota; first [apply IHd | apply scan_digits_uint_pos]; lia.
Qed.

(** The first character of a numeral is a digit: it is not skipped as
    white space, it is not taken for a sign, and it starts the digit loop
    whatever came before. *)
Lemma uint_string_head (d : uint) (acc : Z) (k : nat) :
  d <> Nil ->
  skip_space (NilEmpty.string_of_uint d) = NilEmpty.string_of_uint d /\
  split_sign (NilEmpty.string_of_uint d) = (false, NilEmpty.string_of_uint d) /\
  scan_digits (NilEmpty.string_of_uint d) AtStart acc k =
  scan_digits (NilEmpty.string_of_uint d) AfterDigit acc k.
Proof. destruct d; [congruence | repeat split ..]. Qed.

Lemma length_string_of_uint (d : uint) :
  String.length (NilEmpty.string_of_uint d) = nb_digits d.
Proof. induction d; simpl; congruence. Qed.

Lemma int_of_ascii_uint (m : nat) (d : uint) (negative : bool) :
  d <> Nil -> (nb_digits d <= 640)%nat ->
  int_of_ascii m
    (if negative then String "-" (NilEmpty.string_of_uint d)
     else NilEmpty.string_of_uint d) =
  Ok (if negative then - Z.of_N (Pos.of_uint d) else Z.of_N (Pos.of_uint d)).
Proof.
  intros Hd Hlen.
  destruct (uint_string_head d 0 0 Hd) as (Hskip & Hsign & Hscan).
  assert (exceeds_limit m (nb_digits d) = false) as Hlimit.
  { unfold exceeds_limit. apply Nat.leb_le in Hlen.
    rewrite Nat.ltb_antisym, Hlen. reflexivity. }
  unfold int_of_ascii. destruct negative.
  - cbn [skip_space]. change (is_space "-") with false. cbv iota.
    cbn [split_sign]. change (Ascii.eqb "-" "-") with true. cbv iota.
    rewrite Hscan, (scan_digits_uint d 0 (nb_digits d)) by reflexivity.
    now rewrite Hlimit.
  - rewrite Hskip, Hsign, Hscan, (scan_digits_uint d 0 (nb_digits d)) by reflexivity.
    now rewrite Hlimit.
Qed.

(** [int] reads the decimal writing of an integer back to that integer. *)
Lemma int_of_ascii_decimal (m : nat) (z : Z) :
  (String.length (decimal z) <= 640)%nat -> int_of_ascii m (decimal z) = Ok z.
Proof.
  unfold decimal. destruct z as [|p|p]; intros Hlen.
  - reflexivity.
  - cbn [Z.to_int NilEmpty.string_of_int] in *.
    rewrite length_string_of_uint in Hlen.
    rewrite (int_of_ascii_uint m (Pos.to_uint p) false
               (DecimalPos.Unsigned.to_uint_nonnil p) Hlen).
    now rewrite DecimalPos.Unsigned.of_to.
  - cbn [Z.to_int NilEmpty.string_of_int] in *.
    cbn [String.length] in Hlen. rewrite length_string_of_uint in Hlen.
    rewrite (int_of_ascii_uint m (Pos.to_uint p) true
               (DecimalPos.Unsigned.to_uint_nonnil p)) by lia.
    now rewrite DecimalPos.Unsigned.of_to.
Qed.

End MoreBuiltins.

(** ** Decoding and the rewriting to ASCII *)

Section Decoding.
Import py spec.

Lemma is_ascii_cons (c : ascii) (s : string) :
  is_ascii (String c s) = (N_of_ascii c <? 128)%N && is_ascii s.
Proof.
  unfold is_ascii. simpl. rewrite negb_orb. f_equal.
  now rewrite N.ltb_antisym.
Qed.

Lemma all_space_is_ascii (s : string) : all_space s = true -> is_ascii s = true.
Proof.
  induction s as [|c s IH]; [reflexivity|].
  rewrite all_space_cons, is_ascii_cons. intros [Hc Hs]%andb_prop.
  rewrite (IH Hs), andb_true_r. apply N.ltb_lt.
  unfold is_space, nat_of_ascii in Hc.
  apply orb_prop in Hc as [Hc|Hc].
  - apply Nat.eqb_eq in Hc. lia.
  - apply andb_prop in Hc as [_ Hc]. apply Nat.leb_le in Hc. lia.
Qed.

Lemma codes_cons (c : ascii) (s : string) :
  codes (String c s) = N_of_ascii c :: codes s.
Proof. reflexivity. Qed.

Lemma codes_app (s t : string) : codes (s +:+ t) = codes s ++ codes t.
Proof.
  induction s as [|c s IH]; [reflexivity|].
  change (String c s +:+ t) with (String c (s +:+ t)).
  now rewrite !codes_cons, IH.
Qed.

(** An ASCII byte ends whatever sequence was open and stands for itself. *)
Lemma utf8_step_ascii (st : utf8_state) (b : N) :
  (b < 128)%N -> utf8_step st b = (utf8_flush st ++ [b], Start).
Proof.
  intros Hb. assert (utf8_start b = ([b], Start)) as Hstart.
  { unfold utf8_start. now apply N.ltb_lt in Hb as ->. }
  destruct st as [|need acc next raw]; simpl; [exact Hstart|].
  assert ((second_lo next <=? b)%N = false) as ->
    by (apply N.leb_gt; destruct next; simpl; lia).
  simpl. now rewrite Hstart.
Qed.

Lemma fsdecode_from_ascii (st : utf8_state) (t : string) :
  is_ascii t = true -> fsdecode_from st t = utf8_flush st ++ codes t.
Proof.
  revert st. induction t as [|c t IH]; intros st.
  - intros _. simpl. now rewrite app_nil_r.
  - rewrite is_ascii_cons. intros [Hc Ht]%andb_prop. apply N.ltb_lt in Hc.
    cbn [fsdecode_from]. rewrite (utf8_step_ascii _ _ Hc), (IH _ Ht), codes_cons.
    cbn [utf8_flush]. now rewrite <- app_assoc.
Qed.

Lemma fsdecode_from_app_ascii (st : utf8_state) (s t : string) :
  is_ascii t = true -> fsdecode_from st (s +:+ t) = fsdecode_from st s ++ codes t.
Proof.
  intros Ht. revert st. induction s as [|c s IH]; intros st.
  - now apply fsdecode_from_ascii.
  - change (String c s +:+ t) with (String c (s +:+ t)). cbn [fsdecode_from].
    destruct (utf8_step st (N_of_ascii c)) as [out st'].
    now rewrite IH, app_assoc.
Qed.

(** ASCII text around a string is decoded to itself, and leaves the
    decoding of the string as it is. *)
Lemma fsdecode_between_ascii (pre s post : string) :
  is_ascii pre = true -> is_ascii post = true ->
  fsdecode (pre +:+ s +:+ post) = codes pre ++ fsdecode s ++ codes post.
Proof.
  intros Hpre Hpost. unfold fsdecode.
  induction pre as [|c pre IH].
  - exact (fsdecode_from_app_ascii Start s post Hpost).
  - rewrite is_ascii_cons in Hpre. apply andb_prop in Hpre as [Hc Hpre].
    apply N.ltb_lt in Hc.
    change (String c pre +:+ s +:+ post) with (String c (pre +:+ s +:+ post)).
    cbn [fsdecode_from]. rewrite (utf8_step_ascii _ _ Hc), codes_cons.
    cbn [utf8_flush app]. now rewrite (IH Hpre).
Qed.

Lemma fsdecode_ascii (s : string) : is_ascii s = true -> fsdecode s = codes s.
Proof. intros Hs. unfold fsdecode. now rewrite fsdecode_from_ascii. Qed.

Lemma forallb_codes_ascii (s : string) :
  is_ascii s = true -> forallb (fun c => (c <? 128)%N) (codes s) = true.
Proof.
  induction s as [|c s IH]; [reflexivity|].
  rewrite is_ascii_cons, codes_cons. simpl. intros [-> Hs]%andb_prop. now apply IH.
Qed.

Lemma string_of_codes_codes (s : string) : string_of_codes (codes s) = s.
Proof.
  induction s as [|c s IH]; [reflexivity|].
  rewrite codes_cons. simpl. now rewrite ascii_N_embedding, IH.
Qed.

Lemma string_of_codes_app (cs ds : list N) :
  string_of_codes (cs ++ ds) = string_of_codes cs +:+ string_of_codes ds.
Proof. induction cs as [|c cs IH]; simpl; [reflexivity|]. now rewrite IH. Qed.

(** On an ASCII string [int] is [int_of_ascii]. *)
Lemma int_of_str_ascii (m : nat) (s : string) :
  is_ascii s = true -> int_of_str m s = int_of_ascii m s.
Proof.
  intros Hs. unfold int_of_str, transform.
  now rewrite (fsdecode_ascii _ Hs), (forallb_codes_ascii _ Hs), string_of_codes_codes.
Qed.

Lemma int_of_str_raises (m : nat) (s : string) (e : exception) :
  int_of_str m s = Raise e -> e = ValueError.
Proof. apply int_of_ascii_raises. Qed.

(** Beyond ASCII: decimal digits of other scripts are read, alone or mixed
    with ASCII digits, and the white space of the Unicode database is
    stripped; the separators 28 to 31, white space to [str.isspace] only,
    are not, and neither is a byte that is not UTF-8. *)
Example int_of_str_accepts :
  int_of_str 4300 examples.arabic_indic_8080 = Ok 8080 /\
  int_of_str 4300 examples.nbsp_8080 = Ok 8080 /\
  int_of_str 4300 (String "194" (String "133" "8080")) = Ok 8080 /\
  int_of_str 4300 ("-8" +:+ examples.arabic_indic_8080) = Ok (-88080) /\
  int_of_str 4300 (examples.nbsp_8080 +:+ " ") = Ok 8080.
Proof. repeat split. Qed.

Example int_of_str_refuses :
  int_of_str 4300 (String "028" "8080") = Raise ValueError /\
  int_of_str 4300 (String "160" "8080") = Raise ValueError /\
  int_of_str 4300 (String "194" "8080") = Raise ValueError /\
  int_of_str 4300 (examples.arabic_indic_8080 +:+ "_") = Raise ValueError /\
  int_of_str 4300 (String "226" (String "133" (String "167" EmptyString))) =
    Raise ValueError.
Proof. repeat split. Qed.

Lemma to_ascii_space (c : ascii) :
  is_space c = true -> to_ascii (N_of_ascii c) = Some c.
Proof.
  intros Hc. unfold to_ascii.
  assert ((N_of_ascii c <? 127)%N = true) as ->.
  { apply N.ltb_lt. unfold is_space, nat_of_ascii in Hc.
    apply orb_prop in Hc as [Hc|Hc].
    - apply Nat.eqb_eq in Hc. lia.
    - apply andb_prop in Hc as [_ Hc]. apply Nat.leb_le in Hc. lia. }
  now rewrite ascii_N_embedding.
Qed.

Lemma append_empty_r (s : string) : s +:+ "" = s.
Proof.
  induction s as [|c s IH]; [reflexivity|].
  change (String c s +:+ "") with (String c (s +:+ "")). now rewrite IH.
Qed.

Lemma transform_each_space_prefix (pre : string) (cs : list N) :
  all_space pre = true ->
  transform_each (codes pre ++ cs) = pre +:+ transform_each cs.
Proof.
  induction pre as [|c pre IH]; [reflexivity|].
  rewrite all_space_cons, codes_cons. intros [Hc Hpre]%andb_prop. simpl.
  now rewrite (to_ascii_space _ Hc), (IH Hpre).
Qed.

(** What follows a text is rewritten after it, unless the rewriting of the
    text has stopped. *)
Lemma transform_each_space_suffix (cs : list N) (post : string) :
  all_space post = true ->
  exists post', all_space post' = true /\
    transform_each (cs ++ codes post) = transform_each cs +:+ post'.
Proof.
  intros Hpost. induction cs as [|c cs (post' & Hpost' & IH)]; simpl.
  - exists post. split; [exact Hpost|].
    rewrite <- (app_nil_r (codes post)), transform_each_space_prefix by exact Hpost.
    apply append_empty_r.
  - destruct (to_ascii c) as [b|].
    + exists post'. split; [exact Hpost'|]. simpl. now rewrite IH.
    + exists "". split; reflexivity.
Qed.

(** [int] ignores white space around its argument. *)
Lemma int_of_str_strip (m : nat) (pre s post : string) :
  all_space pre = true -> all_space post = true ->
  int_of_str m (pre +:+ s +:+ post) = int_of_str m s.
Proof.
  intros Hpre Hpost. unfold int_of_str, transform.
  rewrite fsdecode_between_ascii by now apply all_space_is_ascii.
  rewrite !forallb_app, !forallb_codes_ascii by now apply all_space_is_ascii.
  rewrite andb_true_r. cbn [andb].
  destruct (forallb _ (fsdecode s)).
  - rewrite !string_of_codes_app, !string_of_codes_codes.
    now apply int_of_ascii_strip.
  - rewrite (transform_each_space_prefix _ _ Hpre).
    destruct (transform_each_space_suffix (fsdecode s) post Hpost)
      as (post' & Hpost' & ->).
    now apply int_of_ascii_strip.
Qed.

Lemma is_ascii_string_of_uint (d : uint) :
  is_ascii (NilEmpty.string_of_uint d) = true.
Proof. induction d; simpl; try reflexivity; now rewrite is_ascii_cons, IHd. Qed.

Lemma is_ascii_decimal (z : Z) : is_ascii (decimal z) = true.
Proof.
  unfold decimal. destruct (Z.to_int z) as [d|d]; simpl.
  - apply is_ascii_string_of_uint.
  - now rewrite is_ascii_cons, is_ascii_string_of_uint.
Qed.

(** [int] reads the decimal writing of an integer back to that integer. *)
Lemma int_of_str_decimal (m : nat) (z : Z) :
  (String.length (decimal z) <= 640)%nat -> int_of_str m (decimal z) = Ok z.
Proof.
  intros Hlen. rewrite int_of_str_ascii by apply is_ascii_decimal.
  now apply int_of_ascii_decimal.
Qed.

End Decoding.

(** ** [int_of_ascii] reads exactly the integer literals *)

Section AsciiLiteral.
Import py spec.

Local Abbreviation chars := list_ascii_of_string.
Local Abbreviation str := string_of_list_ascii.

(** The tests of the parser and the classes of the grammar agree, on every
    character. *)
Lemma ascii_class_spec (b : ascii) :
  (is_space b = true <-> ascii_class b = White) /\
  (forall d, digit_value b = Some d <-> ascii_class b = Digit d) /\
  (Ascii.eqb b "_" = true <-> ascii_class b = Underscore) /\
  (Ascii.eqb b "+" = true <-> ascii_class b = Plus) /\
  (Ascii.eqb b "-" = true <-> ascii_class b = Minus).
Proof.
  destruct b as [[] [] [] [] [] [] [] []]; vm_compute;
    repeat split; try discriminate; try congruence;
    intros; try discriminate; congruence.
Qed.

Lemma class_white (b : ascii) : ascii_class b = White -> is_space b = true.
Proof. apply ascii_class_spec. Qed.

Lemma class_digit (b : ascii) (d : Z) : ascii_class b = Digit d -> digit_value b = Some d.
Proof. apply ascii_class_spec. Qed.

Lemma class_underscore (b : ascii) : ascii_class b = Underscore -> Ascii.eqb b "_" = true.
Proof. apply ascii_class_spec. Qed.

Lemma class_not_digit (b : ascii) :
  (forall d, ascii_class b <> Digit d) -> digit_value b = None.
Proof.
  intros H. destruct (digit_value b) as [d|] eqn:E; [|reflexivity].
  apply ascii_class_spec in E. now destruct (H d).
Qed.

Lemma class_not_underscore (b : ascii) :
  ascii_class b <> Underscore -> Ascii.eqb b "_" = false.
Proof.
  intros H. destruct (Ascii.eqb b "_") eqn:E; [|reflexivity].
  apply ascii_class_spec in E. now destruct H.
Qed.

Lemma class_not_white (b : ascii) : ascii_class b <> White -> is_space b = false.
Proof.
  intros H. destruct (is_space b) eqn:E; [|reflexivity].
  apply ascii_class_spec in E. now destruct H.
Qed.

Lemma str_app (l1 l2 : list ascii) : str (l1 ++ l2) = str l1 +:+ str l2.
Proof. induction l1 as [|x l1 IH]; simpl; [reflexivity|]. now rewrite IH. Qed.

(** *** From the grammar to the parser *)

Lemma skip_space_white (pre : list ascii) (s : string) :
  Forall (fun x => ascii_class x = White) pre ->
  skip_space (str pre +:+ s) = skip_space s.
Proof.
  induction 1 as [|x pre Hx _ IH]; [reflexivity|].
  simpl. now rewrite (class_white _ Hx).
Qed.

Lemma skip_space_all_white (post : list ascii) :
  Forall (fun x => ascii_class x = White) post -> skip_space (str post) = "".
Proof.
  intros H. rewrite <- (append_empty_r (str post)). now rewrite skip_space_white.
Qed.

Lemma scan_digits_stops (rest : list ascii) (acc : Z) (k : nat) :
  stops rest -> scan_digits (str rest) AfterDigit acc k = Some (acc, k, str rest).
Proof.
  destruct rest as [|c rest]; [reflexivity|]. intros [Hd Hu]. simpl.
  now rewrite (class_not_digit _ Hd), (class_not_underscore _ Hu).
Qed.

Lemma scan_digits_body (body : list ascii) (ds : list Z) (rest : list ascii) :
  digits ascii_class body ds -> stops rest ->
  forall prev acc k,
    scan_digits (str body +:+ str rest) prev acc k =
    Some (fold_left (fun a d => 10 * a + d) ds acc, (k + length ds)%nat, str rest).
Proof.
  intros Hbody Hrest.
  induction Hbody as [x d Hx | x d xs ds Hx _ IH | x d y xs ds Hx Hy _ IH];
    intros prev acc k; simpl; rewrite (class_digit _ _ Hx).
  - rewrite (scan_digits_stops _ _ _ Hrest). cbn [fold_left length].
    now rewrite Nat.add_1_r.
  - rewrite IH. cbn [fold_left length]. now rewrite Nat.add_succ_r.
  - assert (digit_value y = None) as ->
      by (apply class_not_digit; intros d' Hd'; congruence).
    rewrite (class_underscore _ Hy), IH. cbn [fold_left length].
    now rewrite Nat.add_succ_r.
Qed.

Lemma digits_head (body : list ascii) (ds : list Z) :
  digits ascii_class body ds ->
  exists x d xs, body = x :: xs /\ ascii_class x = Digit d.
Proof. destruct 1; eauto. Qed.

Lemma within_limit_exceeds (m n : nat) :
  within_limit m n <-> exceeds_limit m n = false.
Proof.
  unfold within_limit, exceeds_limit.
  rewrite !andb_false_iff, !Nat.ltb_ge. lia.
Qed.

Lemma int_of_ascii_literal (m : nat) (a : string) (negative : bool) (ds : list Z) :
  literal ascii_class (chars a) negative ds -> within_limit m (length ds) ->
  int_of_ascii m a = Ok (if negative then - value ds else value ds).
Proof.
  intros (pre & sg & body & post & Ha & Hpre & Hsg & Hbody & Hpost) Hlimit.
  apply within_limit_exceeds in Hlimit.
  rewrite <- (string_of_list_ascii_of_string a), Ha, (str_app pre).
  assert (stops post) as Hstops.
  { destruct Hpost as [|c post Hc _]; simpl; [exact I|]. split; congruence. }
  destruct (digits_head _ _ Hbody) as (x & d & xs & -> & Hx).
  assert (is_space x = false) as Hxs by (apply class_not_white; congruence).
  assert (Ascii.eqb x "-" = false /\ Ascii.eqb x "+" = false) as [Hxm Hxp].
  { split; match goal with |- ?t = false => destruct t eqn:E end; try reflexivity;
      apply ascii_class_spec in E; congruence. }
  assert (forall neg' : bool,
    match scan_digits (str ((x :: xs) ++ post)) AtStart 0 0 with
    | Some (n, digits0, rest) =>
        if exceeds_limit m digits0 then Raise ValueError
        else match skip_space rest with
             | "" => Ok (if neg' then - n else n)
             | String _ _ => Raise ValueError
             end
    | None => Raise ValueError
    end = Ok (if neg' then - value ds else value ds)) as Hcore.
  { intros neg'. rewrite str_app, (scan_digits_body _ _ _ Hbody Hstops).
    cbn [Nat.add]. now rewrite Hlimit, (skip_space_all_white _ Hpost). }
  unfold int_of_ascii. rewrite (skip_space_white _ _ Hpre).
  destruct Hsg as [|y Hy|y Hy].
  - cbn [app string_of_list_ascii skip_space]. rewrite Hxs.
    cbn [split_sign]. rewrite Hxm, Hxp. apply (Hcore false).
  - assert (is_space y = false) as Hys by (apply class_not_white; congruence).
    assert (Ascii.eqb y "+" = true) as Hyp by now apply ascii_class_spec.
    assert (Ascii.eqb y "-" = false) as Hym.
    { destruct (Ascii.eqb y "-") eqn:E; [|reflexivity].
      apply ascii_class_spec in E. congruence. }
    cbn [app string_of_list_ascii skip_space]. rewrite Hys.
    cbn [split_sign]. rewrite Hym, Hyp. apply (Hcore false).
  - assert (is_space y = false) as Hys by (apply class_not_white; congruence).
    assert (Ascii.eqb y "-" = true) as Hym by now apply ascii_class_spec.
    cbn [app string_of_list_ascii skip_space]. rewrite Hys.
    cbn [split_sign]. rewrite Hym. apply (Hcore true).
Qed.

(** *** From the parser to the grammar *)

Lemma skip_space_inv (a : string) :
  exists pre, chars a = pre ++ chars (skip_space a) /\
              Forall (fun x => ascii_class x = White) pre.
Proof.
  induction a as [|c a (pre & Hpre & Hwhite)]; [now exists []|].
  simpl. destruct (is_space c) eqn:Hc.
  - exists (c :: pre). split; [simpl; congruence|].
    constructor; [now apply ascii_class_spec | exact Hwhite].
  - now exists [].
Qed.

Lemma skip_space_empty (rest : string) :
  skip_space rest = "" -> Forall (fun x => ascii_class x = White) (chars rest).
Proof.
  intros H. destruct (skip_space_inv rest) as (pre & Hpre & Hwhite).
  rewrite H in Hpre. simpl in Hpre. rewrite app_nil_r in Hpre. congruence.
Qed.

Lemma split_sign_inv (a : string) :
  exists sg, chars a = sg ++ chars (split_sign a).2 /\
             sign ascii_class sg (split_sign a).1.
Proof.
  destruct a as [|c a]; [exists []; split; [reflexivity | constructor]|].
  simpl. destruct (Ascii.eqb c "-") eqn:Hm; [|destruct (Ascii.eqb c "+") eqn:Hp].
  - exists [c]. split; [reflexivity|]. apply sign_minus. now apply ascii_class_spec.
  - exists [c]. split; [reflexivity|]. apply sign_plus. now apply ascii_class_spec.
  - exists []. split; [reflexivity | constructor].
Qed.

(** What the digit loop has read when it succeeds: nothing at all (right
    after a digit), digits, or an underscore and digits (right after a
    digit). *)
Lemma scan_digits_inv (s : string) :
  forall prev acc k n k' rest,
    scan_digits s prev acc k = Some (n, k', rest) ->
    (prev = AfterDigit /\ s = rest /\ n = acc /\ k' = k) \/
    (exists body ds,
       chars s = body ++ chars rest /\ digits ascii_class body ds /\
       n = fold_left (fun a d => 10 * a + d) ds acc /\ k' = (k + length ds)%nat) \/
    (prev = AfterDigit /\ exists y body ds,
       chars s = y :: body ++ chars rest /\ ascii_class y = Underscore /\
       digits ascii_class body ds /\
       n = fold_left (fun a d => 10 * a + d) ds acc /\ k' = (k + length ds)%nat).
Proof.
  induction s as [|c s IH]; intros prev acc k n k' rest.
  - simpl. destruct prev; simpl; try discriminate.
    intros [= <- <- <-]. now left.
  - simpl. destruct (digit_value c) as [d|] eqn:Hd.
    + apply ascii_class_spec in Hd. intros H. right; left.
      destruct (IH _ _ _ _ _ _ H)
        as [(_ & -> & -> & ->) | [(body & ds & Hs & Hbody & -> & ->)
           | (_ & y & body & ds & Hs & Hy & Hbody & -> & ->)]].
      * exists [c], [d]. repeat split; [now constructor | simpl; lia].
      * exists (c :: body), (d :: ds). simpl. rewrite Hs.
        repeat split; [now apply digits_next | lia].
      * exists (c :: y :: body), (d :: ds). simpl. rewrite Hs.
        repeat split; [now apply digits_sep | lia].
    + destruct (Ascii.eqb c "_") eqn:Hu.
      * apply ascii_class_spec in Hu. destruct prev; try discriminate. intros H.
        right; right. split; [reflexivity|].
        destruct (IH _ _ _ _ _ _ H)
          as [(? & _) | [(body & ds & Hs & Hbody & -> & ->) | (? & _)]];
          try discriminate.
        exists c, body, ds. simpl. now rewrite Hs.
      * destruct prev; simpl; try discriminate. intros [= <- <- <-]. now left.
Qed.

Lemma int_of_ascii_ok (m : nat) (a : string) (z : Z) :
  int_of_ascii m a = Ok z ->
  exists negative ds,
    literal ascii_class (chars a) negative ds /\ within_limit m (length ds) /\
    z = if negative then - value ds else value ds.
Proof.
  unfold int_of_ascii.
  destruct (skip_space_inv a) as (pre & Ha & Hpre).
  destruct (split_sign_inv (skip_space a)) as (sg & Hsign & Hsg).
  destruct (split_sign (skip_space a)) as [negative body]. simpl in Hsign, Hsg.
  destruct (scan_digits body AtStart 0 0) as [[[n k] rest]|] eqn:Hscan;
    [|discriminate].
  destruct (exceeds_limit m k) eqn:Hlimit; [discriminate|].
  destruct (skip_space rest) eqn:Hrest; [|discriminate]. intros [= <-].
  apply skip_space_empty in Hrest.
  destruct (scan_digits_inv _ _ _ _ _ _ _ Hscan)
    as [(? & _) | [(bd & ds & Hbody & Hdigits & -> & ->) | (? & _)]];
    try discriminate.
  exists negative, ds. split; [|split].
  - exists pre, sg, bd, (chars rest). now rewrite Ha, Hsign, Hbody.
  - now apply within_limit_exceeds.
  - reflexivity.
Qed.

(** [int_of_ascii] and the grammar say the same. *)
Lemma int_of_ascii_iff (m : nat) (a : string) (z : Z) :
  int_of_ascii m a = Ok z <->
  exists negative ds,
    literal ascii_class (chars a) negative ds /\ within_limit m (length ds) /\
    z = if negative then - value ds else value ds.
Proof.
  split; [apply int_of_ascii_ok|].
  intros (negative & ds & Hliteral & Hlimit & ->).
  now apply int_of_ascii_literal.
Qed.

End AsciiLiteral.

(** ** [int] reads exactly the writings of integers *)

Section IntegerLiteral.
Import py spec.

Local Abbreviation chars := list_ascii_of_string.

(** *** The grammar depends on the classes only *)

Lemma digits_transport {A B : Type} (f : A -> class) (g : B -> class)
    (xs : list A) (ds : list Z) :
  digits f xs ds ->
  forall ys, Forall2 (fun x y => f x = g y) xs ys -> digits g ys ds.
Proof.
  induction 1 as [x d Hx | x d xs ds Hx _ IH | x d y xs ds Hx Hy _ IH]; intros ys Hys.
  - inversion Hys as [|? y ? ? Hxy Hnil]; subst. inversion Hnil; subst.
    apply digits_last. congruence.
  - inversion Hys as [|? y ? ys' Hxy Hrest]; subst.
    apply digits_next; [congruence | now apply IH].
  - inversion Hys as [|? y1 ? ys1 Hxy Hrest1]; subst.
    inversion Hrest1 as [|? y2 ? ys2 Hyy Hrest2]; subst.
    apply digits_sep; [congruence | congruence | now apply IH].
Qed.

Lemma white_transport {A B : Type} (f : A -> class) (g : B -> class)
    (xs : list A) (ys : list B) :
  Forall2 (fun x y => f x = g y) xs ys ->
  Forall (fun x => f x = White) xs -> Forall (fun y => g y = White) ys.
Proof.
  induction 1 as [|x y xs ys Hxy _ IH]; [constructor|].
  intros Hwhite. inversion Hwhite; subst. constructor; [congruence | auto].
Qed.

Lemma sign_transport {A B : Type} (f : A -> class) (g : B -> class)
    (xs : list A) (ys : list B) (negative : bool) :
  Forall2 (fun x y => f x = g y) xs ys -> sign f xs negative -> sign g ys negative.
Proof.
  intros Hxy Hsign. destruct Hsign as [|x Hx|x Hx].
  - inversion Hxy; subst. constructor.
  - inversion Hxy as [|? y ? ? Hfg Hnil]; subst. inversion Hnil; subst.
    apply sign_plus. congruence.
  - inversion Hxy as [|? y ? ? Hfg Hnil]; subst. inversion Hnil; subst.
    apply sign_minus. congruence.
Qed.

Lemma literal_transport {A B : Type} (f : A -> class) (g : B -> class)
    (xs : list A) (ys : list B) (negative : bool) (ds : list Z) :
  Forall2 (fun x y => f x = g y) xs ys ->
  literal f xs negative ds -> literal g ys negative ds.
Proof.
  intros Hxy (pre & sg & body & post & -> & Hpre & Hsg & Hbody & Hpost).
  apply Forall2_app_inv_l in Hxy as (pre' & ys1 & Hpre' & Hxy & ->).
  apply Forall2_app_inv_l in Hxy as (sg' & ys2 & Hsg' & Hxy & ->).
  apply Forall2_app_inv_l in Hxy as (body' & post' & Hbody' & Hpost' & ->).
  exists pre', sg', body', post'. split; [reflexivity|].
  split; [exact (white_transport f g _ _ Hpre' Hpre)|].
  split; [exact (sign_transport f g _ _ _ Hsg' Hsg)|].
  split; [exact (digits_transport f g _ _ Hbody _ Hbody')|].
  exact (white_transport f g _ _ Hpost' Hpost).
Qed.

Lemma digits_no_other {A : Type} (f : A -> class) (xs : list A) (ds : list Z) :
  digits f xs ds -> Forall (fun x => f x <> Other) xs.
Proof. induction 1; repeat constructor; congruence || assumption. Qed.

(** Every character of a literal is white space, a sign, a digit or an
    underscore. *)
Lemma literal_no_other {A : Type} (f : A -> class) (xs : list A)
    (negative : bool) (ds : list Z) :
  literal f xs negative ds -> Forall (fun x => f x <> Other) xs.
Proof.
  intros (pre & sg & body & post & -> & Hpre & Hsg & Hbody & Hpost).
  rewrite !Forall_app. repeat split.
  - eapply Forall_impl; [exact Hpre|]. simpl. congruence.
  - destruct Hsg; repeat constructor; congruence.
  - now apply digits_no_other in Hbody.
  - eapply Forall_impl; [exact Hpost|]. simpl. congruence.
Qed.

Lemma digits_has_digit {A : Type} (f : A -> class) (xs : list A) (ds : list Z) :
  digits f xs ds -> Exists (fun x => exists d, f x = Digit d) xs.
Proof. destruct 1; apply Exists_cons_hd; eauto. Qed.

(** A literal has a digit. *)
Lemma literal_has_digit {A : Type} (f : A -> class) (xs : list A)
    (negative : bool) (ds : list Z) :
  literal f xs negative ds -> Exists (fun x => exists d, f x = Digit d) xs.
Proof.
  intros (pre & sg & body & post & -> & _ & _ & Hbody & _).
  rewrite !Exists_app. right; right; left. now apply digits_has_digit in Hbody.
Qed.

(** *** The rewriting to ASCII keeps the class of a character *)

Lemma decimal_lt_10 (c d : N) : unicodedata.decimal c = Some d -> (d < 10)%N.
Proof.
  unfold unicodedata.decimal. destruct (c <? 128)%N.
  - destruct ((48 <=? c) && (c <=? 57))%N eqn:E; [|discriminate].
    intros [= <-]. apply andb_prop in E as [E1 E2].
    apply N.leb_le in E1, E2. lia.
  - destruct (find _ unicodedata.zeros) as [z|] eqn:E; [|discriminate].
    intros [= <-]. apply find_some in E as [_ E].
    apply andb_prop in E as [E1 E2]. apply N.leb_le in E1. apply N.ltb_lt in E2. lia.
Qed.

Lemma ascii_code_class (c : N) :
  (c < 128)%N -> ascii_class (ascii_of_N c) = class_of c.
Proof.
  intros Hc. rewrite <- (N2Nat.id c).
  assert (N.to_nat c < 128)%nat as Hn by lia. clear Hc.
  generalize dependent (N.to_nat c). intros n Hn.
  do 128 (destruct n as [|n]; [vm_compute; reflexivity|]). lia.
Qed.

Lemma digit_code_class (d : N) :
  (d < 10)%N -> ascii_class (ascii_of_N (48 + d)) = Digit (Z.of_N d).
Proof.
  intros Hd. rewrite <- (N2Nat.id d).
  assert (N.to_nat d < 10)%nat as Hn by lia. clear Hd.
  generalize dependent (N.to_nat d). intros n Hn.
  do 10 (destruct n as [|n]; [vm_compute; reflexivity|]). lia.
Qed.

Lemma class_of_beyond_ascii (c : N) :
  (127 <= c)%N ->
  class_of c =
  if (128 <=? c)%N && unicodedata.isspace c then White
  else match unicodedata.decimal c with
       | Some d => Digit (Z.of_N d)
       | None => Other
       end.
Proof.
  intros Hc. unfold class_of.
  assert ((c =? 43) = false /\ (c =? 45) = false /\ (c =? 95) = false /\
          (c =? 32) = false /\ (c <=? 13) = false)%N as (-> & -> & -> & -> & ->).
  { rewrite !N.eqb_neq, N.leb_gt. lia. }
  now rewrite andb_false_r.
Qed.

Lemma isspace_beyond_ascii (c : N) :
  (127 <= c)%N -> unicodedata.isspace c = true -> (128 <= c)%N.
Proof.
  intros Hc Hs. destruct (N.eq_dec c 127%N) as [->|]; [discriminate|lia].
Qed.

Lemma to_ascii_class (c : N) (b : ascii) :
  to_ascii c = Some b -> ascii_class b = class_of c.
Proof.
  unfold to_ascii. destruct (c <? 127)%N eqn:Hc.
  - intros [= <-]. apply N.ltb_lt in Hc. apply ascii_code_class. lia.
  - apply N.ltb_ge in Hc. rewrite (class_of_beyond_ascii _ Hc).
    destruct (unicodedata.isspace c) eqn:Hs.
    + intros [= <-]. apply (isspace_beyond_ascii _ Hc), N.leb_le in Hs as ->.
      reflexivity.
    + rewrite andb_false_r.
      destruct (unicodedata.decimal c) as [d|] eqn:Hd; [|discriminate].
      intros [= <-]. apply digit_code_class. now apply decimal_lt_10 in Hd.
Qed.

Lemma to_ascii_none (c : N) : to_ascii c = None -> class_of c = Other.
Proof.
  unfold to_ascii. destruct (c <? 127)%N eqn:Hc; [discriminate|].
  apply N.ltb_ge in Hc. rewrite (class_of_beyond_ascii _ Hc).
  destruct (unicodedata.isspace c); [discriminate|]. rewrite andb_false_r.
  now destruct (unicodedata.decimal c).
Qed.

Lemma string_of_codes_classes (cs : list N) :
  forallb (fun c => (c <? 128)%N) cs = true ->
  Forall2 (fun c b => class_of c = ascii_class b) cs (chars (string_of_codes cs)).
Proof.
  induction cs as [|c cs IH]; simpl; [constructor|].
  intros [Hc Hcs]%andb_prop. apply N.ltb_lt in Hc.
  constructor; [now rewrite ascii_code_class | auto].
Qed.

(** The rewriting goes through, character by character, or it stops at a
    character that is nothing to an integer literal and leaves a "?". *)
Lemma transform_each_classes (cs : list N) :
  Forall2 (fun c b => class_of c = ascii_class b) cs (chars (transform_each cs)) \/
  (Exists (fun c => class_of c = Other) cs /\
   has_char (fun c => negb (literal_char c)) (transform_each cs) = true).
Proof.
  induction cs as [|c cs IH]; simpl; [left; constructor|].
  destruct (to_ascii c) as [b|] eqn:Hc.
  - destruct IH as [IH | [Hother Hchar]].
    + left. constructor; [now rewrite (to_ascii_class _ _ Hc) | exact IH].
    + right. split; [now apply Exists_cons_tl|]. simpl. rewrite Hchar.
      apply orb_true_r.
  - right. split; [|reflexivity]. apply Exists_cons_hd. now apply to_ascii_none.
Qed.

Lemma int_of_ascii_foreign (m : nat) (a : string) :
  has_char (fun c => negb (literal_char c)) a = true ->
  int_of_ascii m a = Raise ValueError.
Proof.
  intros H. apply int_of_ascii_non_numeric. unfold non_numeric. rewrite H.
  apply orb_true_r.
Qed.

(** *** The theorem *)

(** [int(s)] is [z] exactly when the characters of [s] are a writing of
    [z] that the interpreter converts. *)
Lemma int_of_str_iff (m : nat) (s : string) (z : Z) :
  int_of_str m s = Ok z <-> integer m (fsdecode s) z.
Proof.
  unfold int_of_str, transform, integer.
  destruct (forallb _ (fsdecode s)) eqn:Hascii.
  - pose proof (string_of_codes_classes _ Hascii) as Hclasses.
    rewrite int_of_ascii_iff.
    split; intros (negative & ds & Hliteral & Hrest); exists negative, ds;
      (split; [|exact Hrest]).
    + eapply literal_transport; [|exact Hliteral].
      apply Forall2_flip. eapply Forall2_impl; [exact Hclasses|]. simpl. congruence.
    + eapply literal_transport; [exact Hclasses | exact Hliteral].
  - destruct (transform_each_classes (fsdecode s)) as [Hclasses | [Hother Hchar]].
    + rewrite int_of_ascii_iff.
      split; intros (negative & ds & Hliteral & Hrest); exists negative, ds;
        (split; [|exact Hrest]).
      * eapply literal_transport; [|exact Hliteral].
        apply Forall2_flip. eapply Forall2_impl; [exact Hclasses|]. simpl. congruence.
      * eapply literal_transport; [exact Hclasses | exact Hliteral].
    + rewrite (int_of_ascii_foreign _ _ Hchar). split; [discriminate|].
      intros (negative & ds & Hliteral & _). exfalso.
      apply literal_no_other in Hliteral.
      apply Exists_exists in Hother as (c & Hin & Hc).
      rewrite Forall_forall in Hliteral. now apply (Hliteral c).
Qed.

(** Whatever is not such a writing makes [int] raise [ValueError]. *)
Lemma int_of_str_not_integer (m : nat) (s : string) :
  (forall z, ~ integer m (fsdecode s) z) -> int_of_str m s = Raise ValueError.
Proof.
  intros Hnot. destruct (int_of_str m s) as [z|e] eqn:E.
  - apply int_of_str_iff in E. now destruct (Hnot z).
  - now rewrite (int_of_str_raises _ _ _ E).
Qed.

(** A text that is not numeric is no writing of an integer. *)
Lemma non_numeric_text_not_integer (m : nat) (cs : list N) (z : Z) :
  non_numeric_text cs -> ~ integer m cs z.
Proof.
  intros [Hnone | Hother] (negative & ds & Hliteral & _).
  - apply literal_has_digit, Exists_exists in Hliteral as (c & Hin & d & Hd).
    rewrite Forall_forall in Hnone. now apply (Hnone c Hin d).
  - apply literal_no_other in Hliteral.
    apply Exists_exists in Hother as (c & Hin & Hc).
    rewrite Forall_forall in Hliteral. now apply (Hliteral c).
Qed.

End IntegerLiteral.

(** ** Configuration and start-up (the [__main__] block) *)

Section Startup.
Import py flask spec app.

Lemma port_eq (i : interpreter) : port i = ([EnvironGet "PORT"], parsed_port i).
Proof.
  unfold port, parsed_port, mbind, M_bind, bind, os_environ_get, int.
  now destruct (environ i !! "PORT").
Qed.

Lemma debug_eq (i : interpreter) :
  debug i = ([EnvironGet "FLASK_DEBUG"], Ok (debug_flag i)).
Proof.
  unfold debug, debug_flag, mbind, M_bind, bind, os_environ_get, lift, mret, M_ret, ret.
  now destruct (environ i !! "FLASK_DEBUG").
Qed.

Lemma main_eq (name : string) (i : interpreter) :
  main name i =
  match parsed_port i with
  | Ok p =>
      ([EnvironGet "PORT"; EnvironGet "FLASK_DEBUG"; AppRun "0.0.0.0" p (debug_flag i)],
       Ok tt)
  | Raise e => ([EnvironGet "PORT"], Raise e)
  end.
Proof.
  unfold main, mbind, M_bind. unfold bind at 1. rewrite port_eq.
  destruct (parsed_port i) as [p|e]; [|reflexivity].
  unfold bind. rewrite debug_eq. reflexivity.
Qed.

Lemma module_main_eq (i : interpreter) :
  module "__main__" i =
  match parsed_port i with
  | Ok p =>
      ([EnvironGet "PORT"; EnvironGet "FLASK_DEBUG"; AppRun "0.0.0.0" p (debug_flag i)],
       Ok (app.app "__main__"))
  | Raise e => ([EnvironGet "PORT"], Raise e)
  end.
Proof.
  unfold module. rewrite String.eqb_refl.
  unfold mbind, M_bind, bind. rewrite main_eq.
  now destruct (parsed_port i).
Qed.

Lemma module_import_eq (name : string) (i : interpreter) :
  name <> "__main__" -> module name i = ([], Ok (app.app name)).
Proof.
  intros H. unfold module. apply String.eqb_neq in H. now rewrite H.
Qed.

Lemma debug_flag_true_iff (i : interpreter) :
  debug_flag i = true <->
  exists s, environ i !! "FLASK_DEBUG" = Some s /\ eq_ignore_case s "true" = true.
Proof.
  unfold debug_flag. destruct (environ i !! "FLASK_DEBUG") as [s|].
  - rewrite String.eqb_eq. change "true" with (str_lower "true") at 1.
    rewrite str_lower_eq_iff. split; [eauto|]. now intros (? & [= <-] & ?).
  - split; [discriminate|]. now intros (? & ? & _).
Qed.

(** *** The serving loop *)

Lemma serve_requests (fs : files) (s : server) (reqs : list Request) :
  serve fs (Listening s) (Incoming <$> reqs) =
  (Listening s, wsgi_app (application s) fs <$> reqs).
Proof.
  induction reqs as [|r reqs IH]; [reflexivity|].
  rewrite !fmap_cons. cbn [serve step]. rewrite IH. reflexivity.
Qed.

Lemma serve_exited (fs : files) (evs : list event) :
  serve fs Exited evs = (Exited, []).
Proof.
  induction evs as [|ev evs IH]; [reflexivity|].
  simpl. now rewrite IH.
Qed.

Lemma serve_exited_iff (fs : files) (s : server) (evs : list event) :
  (serve fs (Listening s) evs).1 = Exited <-> Terminate ∈ evs.
Proof.
  induction evs as [|ev evs IH].
  - simpl. split; [discriminate|]. intros H. inversion H.
  - rewrite elem_of_cons. destruct ev as [req|]; simpl.
    + destruct (serve fs (Listening s) evs) as [p out]. simpl in *.
      rewrite IH. split; [auto|]. now intros [|].
    + rewrite serve_exited. simpl. split; auto.
Qed.

End Startup.

(** ** The claims on configuration and start-up *)

Section StartupClaims.
Import py flask spec app examples.

(** C2: run as a script, the module resolves the port to the integer that
    the value of PORT writes (in any writing of it that the interpreter
    converts: a sign, leading zeros, digits of any script, underscores
    between digits, white space around), and to 5000 when PORT is absent;
    the server is started on the port so resolved, so PORT=8080 starts it
    on 8080 and no PORT on 5000. *)
Theorem port_from_environment (i : interpreter) :
  (forall s z,
     environ i !! "PORT" = Some s ->
     integer (int_max_str_digits i) (fsdecode s) z ->
     outcome (port i) = Ok z /\
     exists d, trace (module "__main__" i) =
       [EnvironGet "PORT"; EnvironGet "FLASK_DEBUG"; AppRun "0.0.0.0" z d]) /\
  (forall s z,
     environ i !! "PORT" = Some s ->
     outcome (port i) = Ok z ->
     integer (int_max_str_digits i) (fsdecode s) z) /\
  (environ i !! "PORT" = None ->
     outcome (port i) = Ok 5000 /\
     exists d, trace (module "__main__" i) =
       [EnvironGet "PORT"; EnvironGet "FLASK_DEBUG"; AppRun "0.0.0.0" 5000 d]) /\
  (environ i !! "PORT" = Some "8080" ->
     outcome (port i) = Ok 8080 /\
     exists d, trace (module "__main__" i) =
       [EnvironGet "PORT"; EnvironGet "FLASK_DEBUG"; AppRun "0.0.0.0" 8080 d]).
Proof.
  rewrite port_eq, module_main_eq. unfold outcome, trace, parsed_port. simpl.
  split; [|split; [|split]].
  - intros s z -> Hz. apply int_of_str_iff in Hz. rewrite Hz. eauto.
  - intros s z -> Hz. now apply int_of_str_iff.
  - intros ->. eauto.
  - intros ->. change (int_of_str _ "8080") with (@Ok Z 8080). eauto.
Qed.

Lemma port_from_environment_witness :
  outcome (port port_arabic_indic) = Ok 8080 /\
  exists d, trace (module "__main__" port_arabic_indic) =
    [EnvironGet "PORT"; EnvironGet "FLASK_DEBUG"; AppRun "0.0.0.0" 8080 d].
Proof.
  apply (proj1 (port_from_environment port_arabic_indic) arabic_indic_8080 8080);
    [reflexivity|].
  exists false, [8; 0; 8; 0]. split; [|split; [left; cbn; lia | reflexivity]].
  exists [], [], [1640; 1632; 1640; 1632]%N, [].
  split; [reflexivity|]. split; [constructor|]. split; [constructor|].
  split; [|constructor].
  do 3 (apply digits_next; [reflexivity|]). apply digits_last. reflexivity.
Defined.

(** C3: the debug flag is resolved without error, and it is true exactly
    when FLASK_DEBUG is set to a value equal to "true" up to case; when the
    variable is absent the flag is false. *)
Theorem debug_true_iff (i : interpreter) :
  exists d, outcome (debug i) = Ok d /\
    (d = true <->
     exists s, environ i !! "FLASK_DEBUG" = Some s /\ eq_ignore_case s "true" = true) /\
    (environ i !! "FLASK_DEBUG" = None -> d = false).
Proof.
  exists (debug_flag i). rewrite debug_eq. split; [reflexivity|].
  split; [apply debug_flag_true_iff|].
  unfold debug_flag. now intros ->.
Qed.

Lemma debug_true_iff_witness :
  environ debug_mixed_case !! "FLASK_DEBUG" = Some "True" /\
  exists d, outcome (debug debug_mixed_case) = Ok d /\ d = true.
Proof.
  split; [reflexivity|].
  destruct (debug_true_iff debug_mixed_case) as (d & Hd & Htrue & _).
  exists d. split; [exact Hd|]. apply Htrue.
  exists "True". split; reflexivity.
Defined.

(** C4: run as a script with a port that resolves to [p], the module ends
    in one call [app.run] with host "0.0.0.0" (not the loop-back address),
    port [p] and the resolved debug flag; the server so started answers
    every request with the application and keeps listening, and it stops
    only at the end of the process. *)
Theorem server_started_on_all_interfaces (i : interpreter) (p : Z)
    (Hport : outcome (port i) = Ok p) :
  exists d, outcome (debug i) = Ok d /\
    let srv := {| server_host := "0.0.0.0"; server_port := p; server_debug := d;
                  application := app.app "__main__" |} in
    module "__main__" i =
      ([EnvironGet "PORT"; EnvironGet "FLASK_DEBUG";
        AppRun (server_host srv) (server_port srv) (server_debug srv)],
       Ok (application srv)) /\
    server_host srv <> "127.0.0.1" /\
    (forall fs reqs,
       serve fs (Listening srv) (Incoming <$> reqs) =
       (Listening srv, wsgi_app (application srv) fs <$> reqs)) /\
    (forall fs evs, (serve fs (Listening srv) evs).1 = Exited <-> Terminate ∈ evs).
Proof.
  exists (debug_flag i). rewrite debug_eq. split; [reflexivity|].
  rewrite port_eq in Hport. unfold outcome in Hport. simpl in Hport.
  rewrite module_main_eq, Hport. cbv zeta. simpl.
  split; [reflexivity|]. split; [discriminate|]. split.
  - intros fs reqs. apply serve_requests.
  - intros fs evs. apply serve_exited_iff.
Qed.

Lemma server_started_on_all_interfaces_witness :
  exists d, outcome (debug port_8080) = Ok d /\
    module "__main__" port_8080 =
      ([EnvironGet "PORT"; EnvironGet "FLASK_DEBUG"; AppRun "0.0.0.0" 8080 d],
       Ok (app.app "__main__")).
Proof.
  destruct (server_started_on_all_interfaces port_8080 8080 eq_refl)
    as (d & Hd & Hrun & _).
  exists d. split; [exact Hd | exact Hrun].
Defined.

(** C5, as amended: PORT is read and the server started only when the
    module is executed under the name "__main__".  Executed under any other
    name (an import), the statements of the module perform no effect; the
    execution reads one variable of the environment, FLASK_DEBUG, which the
    constructor of the application reads for the default of its setting
    DEBUG; it does not read PORT and does not call [app.run], and its
    result is the application object. *)
Theorem import_reads_only_flask_debug (name : string) (i : interpreter) :
  (name <> "__main__" ->
     module name i = ([], Ok (app.app name)) /\
     trace (execute name i) = [EnvironGet "FLASK_DEBUG"] /\
     exists d, outcome (execute name i) = Ok (app.app name, d)) /\
  (EnvironGet "PORT" ∈ trace (execute name i) -> name = "__main__") /\
  (forall host p d, AppRun host p d ∈ trace (execute name i) -> name = "__main__").
Proof.
  destruct (decide (name = "__main__")) as [->|Hne].
  - repeat split; congruence.
  - pose proof (module_import_eq name i Hne) as Hmodule.
    assert (trace (execute name i) = [EnvironGet "FLASK_DEBUG"] /\
            exists d, outcome (execute name i) = Ok (app.app name, d)) as [Ht Ho].
    { unfold execute, mbind, M_bind, bind, get_debug_flag. rewrite Hmodule.
      unfold trace, outcome. simpl. eauto. }
    rewrite Ht. repeat split; try assumption.
    + intros H. apply list_elem_of_singleton in H. discriminate.
    + intros host p d H. apply list_elem_of_singleton in H. discriminate.
Qed.

Lemma import_reads_only_flask_debug_witness :
  module "app" port_8080 = ([], Ok (app.app "app")) /\
  trace (execute "app" port_8080) = [EnvironGet "FLASK_DEBUG"].
Proof.
  destruct (proj1 (import_reads_only_flask_debug "app" port_8080)) as (Hm & Ht & _);
    [discriminate|].
  split; [exact Hm | exact Ht].
Defined.

(** C5, as stated, fails: on import a variable of the environment is read,
    FLASK_DEBUG, and the application that is exposed depends on it (its
    setting DEBUG is on by default under FLASK_DEBUG=1, off without). *)
Lemma import_reads_the_environment :
  EnvironGet "FLASK_DEBUG" ∈ trace (execute "app" debug_one) /\
  trace (execute "app" debug_one) <> [] /\
  outcome (execute "app" debug_one) = Ok (app.app "app", true) /\
  outcome (execute "app" no_variables) = Ok (app.app "app", false).
Proof.
  assert (trace (execute "app" debug_one) = [EnvironGet "FLASK_DEBUG"]) as Ht
    by reflexivity.
  rewrite Ht. repeat split; try reflexivity; [|discriminate].
  apply list_elem_of_singleton. reflexivity.
Qed.

(** C8: run as a script with PORT set to a value that is not a writing
    of an integer the interpreter converts, the module raises [ValueError]
    right after reading PORT: it does not read FLASK_DEBUG, does not start
    the server, and nothing catches the exception. *)
Theorem unparsable_port_fails_start (i : interpreter) (s : string)
    (Hset : environ i !! "PORT" = Some s)
    (Hbad : forall z, ~ integer (int_max_str_digits i) (fsdecode s) z) :
  outcome (port i) = Raise ValueError /\
  module "__main__" i = ([EnvironGet "PORT"], Raise ValueError).
Proof.
  assert (parsed_port i = Raise ValueError) as Hp.
  { unfold parsed_port. rewrite Hset. now apply int_of_str_not_integer. }
  rewrite port_eq, module_main_eq, Hp. split; reflexivity.
Qed.

Lemma unparsable_port_fails_start_witness :
  module "__main__" port_word = ([EnvironGet "PORT"], Raise ValueError).
Proof.
  apply (unparsable_port_fails_start port_word "http"); [reflexivity|].
  intros z Hz. apply int_of_str_iff in Hz. discriminate.
Defined.

(** C9: the default 5000 is used when PORT is absent; when PORT is set to
    the empty string, or to any text that is not numeric, the module run as
    a script raises [ValueError] at line 14 and no port is resolved. *)
Theorem default_port_only_when_absent (i : interpreter) :
  (environ i !! "PORT" = None -> outcome (port i) = Ok 5000) /\
  (environ i !! "PORT" = Some "" ->
     outcome (port i) = Raise ValueError /\
     module "__main__" i = ([EnvironGet "PORT"], Raise ValueError)) /\
  (forall s, environ i !! "PORT" = Some s -> non_numeric_text (fsdecode s) ->
     outcome (port i) = Raise ValueError /\
     module "__main__" i = ([EnvironGet "PORT"], Raise ValueError)).
Proof.
  rewrite port_eq, module_main_eq. unfold outcome, parsed_port. simpl.
  split; [|split].
  - now intros ->.
  - now intros ->.
  - intros s -> Hs. rewrite int_of_str_not_integer; [split; reflexivity|].
    intros z. now apply non_numeric_text_not_integer.
Qed.

Lemma default_port_only_when_absent_witness :
  outcome (port port_word) = Raise ValueError /\
  module "__main__" port_word = ([EnvironGet "PORT"], Raise ValueError).
Proof.
  apply (proj2 (proj2 (default_port_only_when_absent port_word)) "http");
    [reflexivity|].
  left. repeat constructor; intros d; vm_compute; discriminate.
Defined.

End StartupClaims.

(** ** The application object and its answers *)

Section Routing.
Import py flask spec app examples.

(** The methods [add_url_rule] gives a rule registered without [methods]:
    GET, the OPTIONS it answers itself, and the HEAD that goes with GET. *)
Lemma url_map_add_url_rule (a : App) (p : pattern) (ep : string) (f : view) :
  url_map (add_url_rule a p ep f None) =
  url_map a ++
  [{| rule := p; endpoint := ep; methods := {["GET"; "HEAD"; "OPTIONS"]};
      provide_automatic_options := true |}].
Proof.
  unfold add_url_rule. cbn [url_map default].
  assert ("OPTIONS" ∉ (list_to_set ["GET"] : gset string)) as Hopt
    by (apply (bool_decide_unpack _); vm_compute; exact I).
  rewrite !(bool_decide_eq_true_2 _ Hopt).
  assert ("GET" ∈ (list_to_set ["GET"] ∪ {["OPTIONS"]} : gset string)) as Hget
    by (apply (bool_decide_unpack _); vm_compute; exact I).
  rewrite (bool_decide_eq_true_2 _ Hget).
  reflexivity.
Qed.

Lemma get_in_index_methods : "GET" ∈ methods index_rule.
Proof. apply (bool_decide_unpack _). vm_compute. exact I. Qed.

Lemma not_in_index_methods (m : string) :
  m <> "GET" -> m <> "HEAD" -> m <> "OPTIONS" -> m ∉ methods index_rule.
Proof.
  intros Hget Hhead Hoptions. cbn [methods index_rule].
  rewrite !elem_of_union, !elem_of_singleton. tauto.
Qed.

Lemma url_map_Flask (name : string) : url_map (Flask name) = [static_rule].
Proof. unfold Flask. cbn [static_folder]. now rewrite url_map_add_url_rule. Qed.

Lemma url_map_app (name : string) :
  url_map (app.app name) = url_map (Flask name) ++ [index_rule].
Proof. unfold app.app, route. now rewrite url_map_add_url_rule. Qed.

Lemma view_functions_index (name : string) :
  view_functions (app.app name) !! "index" = Some index.
Proof.
  unfold app.app, route, add_url_rule. cbn [view_functions].
  apply lookup_insert_eq.
Qed.

Lemma error_handlers_app (name : string) : error_handlers (app.app name) = [].
Proof. reflexivity. Qed.

Lemma handle_user_exception_app (name : string) (e : exception) :
  handle_user_exception (app.app name) e =
  match get_response e with
  | Some r => r
  | None => error_page 500 "500 Internal Server Error" ∅
  end.
Proof. reflexivity. Qed.

(** Matching at the path "/": the static rule does not fit, the rule of
    [index] fits the path, and the method decides. *)
Lemma match_rules_root (name m : string) :
  match_rules (url_map (app.app name)) {| method := m; path := "/" |} ∅ =
  if bool_decide (m ∈ methods index_rule) then Ok (index_rule, [])
  else Raise (MethodNotAllowed (methods index_rule)).
Proof.
  rewrite url_map_app, url_map_Flask.
  change ([static_rule] ++ [index_rule]) with [static_rule; index_rule].
  cbn [match_rules static_rule index_rule rule methods path method].
  change (match_pattern (PathVar "/static/" "filename") "/") with (@None view_args).
  change (match_pattern (Literal "/") "/") with (Some ([] : view_args)).
  cbv iota. case_bool_decide; [reflexivity|].
  rewrite (left_id_L ∅ (∪)).
  rewrite bool_decide_eq_false_2; [reflexivity|].
  intros Hempty. apply (not_elem_of_empty (C:=gset string) "GET").
  rewrite <- Hempty. apply get_in_index_methods.
Qed.

(** Matching anywhere else than at "/" and under "/static/": no rule fits
    the path. *)
Lemma match_rules_elsewhere (name : string) (req : Request) :
  path req <> "/" -> strip_prefix "/static/" (path req) = None ->
  match_rules (url_map (app.app name)) req ∅ = Raise NotFound.
Proof.
  intros Hroot Hstatic. rewrite url_map_app, url_map_Flask.
  change ([static_rule] ++ [index_rule]) with [static_rule; index_rule].
  cbn [match_rules static_rule index_rule rule match_pattern].
  rewrite Hstatic.
  assert (String.eqb "/" (path req) = false) as ->
    by (apply String.eqb_neq; congruence).
  now rewrite bool_decide_eq_true_2.
Qed.

Lemma dispatch_get_root (name : string) (fs : files) :
  dispatch_request (app.app name) fs {| method := "GET"; path := "/" |} = index fs [].
Proof.
  unfold dispatch_request. rewrite match_rules_root.
  rewrite bool_decide_eq_true_2 by apply get_in_index_methods.
  cbn [provide_automatic_options index_rule endpoint method andb String.eqb Ascii.eqb
       Bool.eqb].
  now rewrite view_functions_index.
Qed.

End Routing.

(** ** The claims on requests *)

Section RequestClaims.
Import py flask spec app examples.

(** C1, as amended: when the template index.html exists and renders, to the
    text [html], the view [index] returns [html] and the answer to GET / is
    [html] with status 200 and content type text/html. *)
Theorem index_renders_template (name : string) (fs : files) (html : string)
    (Hrenders : templates fs !! "index.html" = Some (Renders html)) :
  index fs [] = Ok (RvStr html) /\
  wsgi_app (app.app name) fs {| method := "GET"; path := "/" |} =
    {| status := 200; mimetype := "text/html"; data := html; allow := ∅ |}.
Proof.
  assert (index fs [] = Ok (RvStr html)) as Hindex
    by (unfold index, render_template; now rewrite Hrenders).
  split; [exact Hindex|].
  unfold wsgi_app, full_dispatch_request.
  rewrite dispatch_get_root, Hindex. reflexivity.
Qed.

Lemma index_renders_template_witness :
  wsgi_app (app.app "app") site (GET "/") =
    {| status := 200; mimetype := "text/html"; data := "<h1>Taylor series</h1>";
       allow := ∅ |}.
Proof.
  apply (index_renders_template "app" site "<h1>Taylor series</h1>"). reflexivity.
Defined.

(** C1, as stated, fails: a template that is there and does not render
    gives status 500, not 200. *)
Lemma existing_template_may_not_render :
  is_Some (templates site_broken_template !! "index.html") /\
  status (wsgi_app (app.app "app") site_broken_template (GET "/")) = 500 /\
  status (wsgi_app (app.app "app") site_broken_template (GET "/")) <> 200.
Proof.
  split; [eexists; reflexivity|].
  unfold wsgi_app, full_dispatch_request, GET. rewrite dispatch_get_root.
  split; [reflexivity | discriminate].
Qed.

(** C7: when index.html is missing or does not render, [index] raises, the
    application has no error handler of its own, and the answer to GET / is
    the framework's page for status 500. *)
Theorem template_failure_is_500 (name : string) (fs : files)
    (Hfails : templates fs !! "index.html" = None \/
              templates fs !! "index.html" = Some Broken) :
  (exists e, index fs [] = Raise e) /\
  error_handlers (app.app name) = [] /\
  wsgi_app (app.app name) fs {| method := "GET"; path := "/" |} =
    error_page 500 "500 Internal Server Error" ∅ /\
  status (wsgi_app (app.app name) fs {| method := "GET"; path := "/" |}) = 500.
Proof.
  assert (exists e, index fs [] = Raise e /\ get_response e = None) as (e & He & Hresp).
  { unfold index, render_template. destruct Hfails as [-> | ->]; eauto. }
  assert (wsgi_app (app.app name) fs {| method := "GET"; path := "/" |} =
          error_page 500 "500 Internal Server Error" ∅) as Hwsgi.
  { unfold wsgi_app, full_dispatch_request.
    rewrite dispatch_get_root, He, handle_user_exception_app, Hresp. reflexivity. }
  rewrite Hwsgi. eauto using error_handlers_app.
Qed.

Lemma template_failure_is_500_witness :
  status (wsgi_app (app.app "app") site_without_template (GET "/")) = 500.
Proof.
  apply (template_failure_is_500 "app" site_without_template). left. reflexivity.
Defined.

(** C10: a request to "/" with a method other than GET, HEAD and OPTIONS is
    answered with the framework's page for status 405, which lists those
    three methods. *)
Theorem other_methods_not_allowed (name : string) (fs : files) (m : string)
    (Hget : m <> "GET") (Hhead : m <> "HEAD") (Hoptions : m <> "OPTIONS") :
  wsgi_app (app.app name) fs {| method := m; path := "/" |} =
    error_page 405 "405 Method Not Allowed" {["GET"; "HEAD"; "OPTIONS"]} /\
  status (wsgi_app (app.app name) fs {| method := m; path := "/" |}) = 405.
Proof.
  assert (wsgi_app (app.app name) fs {| method := m; path := "/" |} =
          error_page 405 "405 Method Not Allowed" {["GET"; "HEAD"; "OPTIONS"]}) as Hwsgi.
  { unfold wsgi_app, full_dispatch_request, dispatch_request.
    rewrite match_rules_root.
    rewrite bool_decide_eq_false_2 by now apply not_in_index_methods.
    rewrite handle_user_exception_app. cbn [get_response method].
    apply String.eqb_neq in Hhead. now rewrite Hhead. }
  now rewrite Hwsgi.
Qed.

Lemma other_methods_not_allowed_witness :
  status (wsgi_app (app.app "app") site {| method := "POST"; path := "/" |}) = 405.
Proof.
  apply (other_methods_not_allowed "app" site "POST"); discriminate.
Defined.

(** C6, as amended: the decorator adds exactly one rule to the map of the
    application, "/" with the methods GET, HEAD and OPTIONS, bound to
    [index]; the only other rule is the one [Flask] starts with, for the
    files under "/static/"; a request to a path that is neither "/" nor
    under "/static/" is answered with the framework's page for status
    404. *)
Theorem one_route_besides_static (name : string) :
  url_map (app.app name) = url_map (Flask name) ++ [index_rule] /\
  rule index_rule = Literal "/" /\
  methods index_rule = {["GET"; "HEAD"; "OPTIONS"]} /\
  view_functions (app.app name) !! endpoint index_rule = Some index /\
  url_map (Flask name) = [static_rule] /\
  (forall fs req,
     path req <> "/" -> strip_prefix "/static/" (path req) = None ->
     full_dispatch_request (app.app name) fs req = error_page 404 "404 Not Found" ∅ /\
     status (wsgi_app (app.app name) fs req) = 404).
Proof.
  split; [apply url_map_app|]. do 2 (split; [reflexivity|]).
  split; [apply view_functions_index|]. split; [apply url_map_Flask|].
  intros fs req Hroot Hstatic.
  assert (full_dispatch_request (app.app name) fs req =
          error_page 404 "404 Not Found" ∅) as Hfull.
  { unfold full_dispatch_request, dispatch_request.
    now rewrite match_rules_elsewhere. }
  split; [exact Hfull|].
  unfold wsgi_app. rewrite Hfull. now destruct (String.eqb _ _).
Qed.

Lemma one_route_besides_static_witness :
  status (wsgi_app (app.app "app") site (GET "/about")) = 404.
Proof.
  apply (one_route_besides_static "app"); [discriminate | reflexivity].
Defined.

(** C6, as stated, fails: the map of the application has two rules, and a
    request to a path other than "/" that names a file of the static folder
    is answered with that file and status 200. *)
Lemma static_file_is_served :
  length (url_map (app.app "app")) = 2%nat /\
  path (GET "/static/style.css") <> "/" /\
  wsgi_app (app.app "app") site (GET "/static/style.css") =
    {| status := 200; mimetype := "text/css"; data := "body { margin: 0 }";
       allow := ∅ |} /\
  status (wsgi_app (app.app "app") site (GET "/static/style.css")) <> 404.
Proof.
  split; [now rewrite url_map_app, url_map_Flask|].
  split; [discriminate|].
  assert (wsgi_app (app.app "app") site (GET "/static/style.css") =
          {| status := 200; mimetype := "text/css"; data := "body { margin: 0 }";
             allow := ∅ |}) as Hwsgi by (vm_compute; reflexivity).
  rewrite Hwsgi. split; [reflexivity | discriminate].
Qed.

End RequestClaims.

(** ** Further properties of configuration and start-up *)

Section MoreStartup.
Import py flask spec app examples.

(** X1: a value of FLASK_DEBUG that is not four characters long ("1",
    "yes", "on", " true": the value is not stripped) leaves the debug flag
    false, and a server started with it is started without debug mode. *)
Theorem debug_false_unless_four_characters (i : interpreter) (s : string)
    (Hset : environ i !! "FLASK_DEBUG" = Some s)
    (Hlen : String.length s <> 4%nat) :
  outcome (debug i) = Ok false /\
  (forall host p d, AppRun host p d ∈ trace (module "__main__" i) -> d = false).
Proof.
  assert (debug_flag i = false) as Hflag.
  { unfold debug_flag. rewrite Hset. apply String.eqb_neq. intros Heq.
    apply (f_equal String.length) in Heq. rewrite length_str_lower in Heq.
    now apply Hlen. }
  rewrite debug_eq. split; [unfold outcome; simpl; congruence|].
  intros host p d. rewrite module_main_eq.
  destruct (parsed_port i) as [q|e]; unfold trace; simpl;
    rewrite ?elem_of_cons, ?elem_of_nil; intros H; decompose [or] H;
    try contradiction; congruence.
Qed.

Lemma debug_false_unless_four_characters_witness :
  outcome (debug debug_one) = Ok false.
Proof.
  apply (debug_false_unless_four_characters debug_one "1"); [reflexivity|].
  discriminate.
Defined.

(** X2: white space before and after the value of PORT does not count: the
    port is resolved as for the value without it. *)
Theorem port_ignores_surrounding_space (i : interpreter) (pre s post : string)
    (Hset : environ i !! "PORT" = Some (pre +:+ s +:+ post))
    (Hpre : all_space pre = true) (Hpost : all_space post = true) :
  outcome (port i) = int_of_str (int_max_str_digits i) s.
Proof.
  rewrite port_eq. unfold outcome, parsed_port. simpl. rewrite Hset.
  now apply int_of_str_strip.
Qed.

Lemma port_ignores_surrounding_space_witness :
  outcome (port port_with_spaces) = Ok 8080.
Proof.
  apply (port_ignores_surrounding_space port_with_spaces " " "8080" " ");
    reflexivity.
Defined.

(** X3: the port is not checked against any range: whatever integer PORT
    holds in decimal writing (of at most 640 characters), negative or
    beyond 65535, the script hands that integer to [app.run]. *)
Theorem port_is_not_range_checked (i : interpreter) (z : Z)
    (Hset : environ i !! "PORT" = Some (decimal z))
    (Hlen : (String.length (decimal z) <= 640)%nat) :
  outcome (port i) = Ok z /\
  exists d, outcome (debug i) = Ok d /\
    module "__main__" i =
      ([EnvironGet "PORT"; EnvironGet "FLASK_DEBUG"; AppRun "0.0.0.0" z d],
       Ok (app.app "__main__")).
Proof.
  assert (parsed_port i = Ok z) as Hp.
  { unfold parsed_port. rewrite Hset. now apply int_of_str_decimal. }
  rewrite port_eq, debug_eq, module_main_eq, Hp. eauto.
Qed.

Lemma port_is_not_range_checked_witness :
  outcome (port port_70000) = Ok 70000.
Proof.
  apply (port_is_not_range_checked port_70000 70000); [reflexivity|].
  apply Nat.leb_le. reflexivity.
Defined.

(** X4: the module reads nothing of the environment but PORT and
    FLASK_DEBUG: under two environments that agree on these two variables
    (and on the interpreter's digit limit) it performs the same effects and
    has the same result, under any name. *)
Theorem module_depends_on_two_variables (name : string) (i i' : interpreter)
    (Hport : environ i !! "PORT" = environ i' !! "PORT")
    (Hdebug : environ i !! "FLASK_DEBUG" = environ i' !! "FLASK_DEBUG")
    (Hlimit : int_max_str_digits i = int_max_str_digits i') :
  module name i = module name i'.
Proof.
  destruct (decide (name = "__main__")) as [->|Hne].
  - rewrite !module_main_eq. unfold parsed_port, debug_flag.
    now rewrite Hport, Hdebug, Hlimit.
  - now rewrite !module_import_eq.
Qed.

Lemma module_depends_on_two_variables_witness :
  module "__main__" port_8080_at_home = module "__main__" port_8080.
Proof.
  apply (module_depends_on_two_variables "__main__" port_8080_at_home port_8080);
    reflexivity.
Defined.

(** X5: every call of [app.run] the module makes is the configured one:
    it happens only under the name "__main__", with host "0.0.0.0", the
    port of line 14 and the debug flag of line 15, and it is the single,
    last effect after the two reads of the environment. *)
Theorem app_run_only_as_configured (name : string) (i : interpreter)
    (host : string) (p : Z) (d : bool)
    (Hrun : AppRun host p d ∈ trace (module name i)) :
  name = "__main__" /\ host = "0.0.0.0" /\
  outcome (port i) = Ok p /\ outcome (debug i) = Ok d /\
  trace (module name i) =
    [EnvironGet "PORT"; EnvironGet "FLASK_DEBUG"; AppRun host p d].
Proof.
  destruct (decide (name = "__main__")) as [->|Hne].
  - rewrite module_main_eq in *. rewrite port_eq, debug_eq.
    destruct (parsed_port i) as [q|e]; unfold trace, outcome in *; simpl in *;
      rewrite ?elem_of_cons, ?elem_of_nil in Hrun; decompose [or] Hrun;
      try discriminate; try contradiction.
    match goal with H : AppRun _ _ _ = AppRun _ _ _ |- _ => injection H as -> -> -> end.
    repeat split.
  - rewrite (module_import_eq name i Hne) in Hrun. inversion Hrun.
Qed.

Lemma app_run_only_as_configured_witness :
  outcome (port port_8080) = Ok 8080 /\ outcome (debug port_8080) = Ok false.
Proof.
  assert (AppRun "0.0.0.0" 8080 false ∈ trace (module "__main__" port_8080)) as Hrun.
  { rewrite module_main_eq. change (parsed_port port_8080) with (@Ok Z 8080).
    unfold trace. simpl. rewrite !elem_of_cons. auto. }
  destruct (app_run_only_as_configured "__main__" port_8080 "0.0.0.0" 8080 false Hrun)
    as (_ & _ & Hp & Hd & _).
  split; [exact Hp | exact Hd].
Defined.

(** X6: the two lines that resolve the configuration (14 and 15) can fail
    in one way only: PORT is set to a value that is not a writing of an
    integer the interpreter converts, and line 14 raises [ValueError].
    Line 15 never raises, whatever FLASK_DEBUG holds. *)
Theorem configuration_raises_only_for_port (i : interpreter) (e : exception)
    (Hraise : outcome (port i) = Raise e \/ outcome (debug i) = Raise e) :
  e = ValueError /\
  outcome (port i) = Raise ValueError /\
  (exists d, outcome (debug i) = Ok d) /\
  exists s, environ i !! "PORT" = Some s /\
            forall z, ~ integer (int_max_str_digits i) (fsdecode s) z.
Proof.
  rewrite port_eq, debug_eq in *. unfold outcome in *. cbn [snd] in *.
  destruct Hraise as [Hraise|Hraise]; [|discriminate].
  unfold parsed_port in *.
  destruct (environ i !! "PORT") as [s|]; [|discriminate].
  pose proof (int_of_str_raises _ _ _ Hraise) as ->.
  repeat split; [assumption|eauto|].
  exists s. split; [reflexivity|].
  intros z Hz. apply int_of_str_iff in Hz. congruence.
Qed.

Lemma configuration_raises_only_for_port_witness :
  outcome (port port_word) = Raise ValueError /\
  exists s, environ port_word !! "PORT" = Some s /\
            forall z, ~ integer (int_max_str_digits port_word) (fsdecode s) z.
Proof.
  destruct (configuration_raises_only_for_port port_word ValueError)
    as (_ & Hp & _ & Hs); [left; reflexivity|].
  split; [exact Hp | exact Hs].
Defined.

End MoreStartup.

(** ** Further properties of the route "/" *)

Section MoreRouting.
Import py flask spec app examples.

Lemma head_in_index_methods : "HEAD" ∈ methods index_rule.
Proof. apply (bool_decide_unpack _). vm_compute. exact I. Qed.

Lemma options_in_index_methods : "OPTIONS" ∈ methods index_rule.
Proof. apply (bool_decide_unpack _). vm_compute. exact I. Qed.

Lemma allowed_methods_root (name : string) :
  allowed_methods (url_map (app.app name)) "/" = {["GET"; "HEAD"; "OPTIONS"]}.
Proof.
  rewrite url_map_app, url_map_Flask.
  change ([static_rule] ++ [index_rule]) with [static_rule; index_rule].
  cbn [allowed_methods static_rule index_rule rule methods].
  change (match_pattern (PathVar "/static/" "filename") "/") with (@None view_args).
  change (match_pattern (Literal "/") "/") with (Some ([] : view_args)).
  cbv iota. apply (right_id_L ∅ (∪)).
Qed.

(** X7: OPTIONS at "/" is answered by the framework, not by [index]:
    whatever the state of the template, the answer has status 200, no body,
    and lists GET, HEAD and OPTIONS as the allowed methods. *)
Theorem options_root_lists_methods (name : string) (fs : files) :
  wsgi_app (app.app name) fs {| method := "OPTIONS"; path := "/" |} =
    {| status := 200; mimetype := "text/html"; data := "";
       allow := {["GET"; "HEAD"; "OPTIONS"]} |}.
Proof.
  unfold wsgi_app, full_dispatch_request, dispatch_request.
  rewrite match_rules_root.
  rewrite bool_decide_eq_true_2 by apply options_in_index_methods.
  cbn [provide_automatic_options index_rule method andb String.eqb Ascii.eqb Bool.eqb
       make_response make_default_options_response path].
  unfold make_default_options_response. cbn [path].
  now rewrite allowed_methods_root.
Qed.

(** X8: HEAD at "/" runs the same view as GET: its answer is the answer to
    GET (200 with the page, or 500) without the body. *)
Theorem head_root_is_get_without_body (name : string) (fs : files) :
  wsgi_app (app.app name) fs {| method := "HEAD"; path := "/" |} =
  without_body (wsgi_app (app.app name) fs {| method := "GET"; path := "/" |}).
Proof.
  unfold wsgi_app, full_dispatch_request.
  rewrite dispatch_get_root.
  unfold dispatch_request. rewrite match_rules_root.
  rewrite bool_decide_eq_true_2 by apply head_in_index_methods.
  cbn [provide_automatic_options index_rule endpoint method andb String.eqb Ascii.eqb
       Bool.eqb].
  now rewrite view_functions_index.
Qed.

End MoreRouting.
